(** * youtube-transcript-mcp: URL resolver, retry-fetch, cache and
      transcript resolution, embedded from the TypeScript sources.

    Layout (one module per source file):
    - [Js]            the JavaScript string operations the sources call;
    - [UrlNormalize]  src/utils/url-normalize.ts;
    - [Runtime]       the world (KV store, upstream log, timers) and the
                      state-and-exception monad of async calls;
    - [Cache]         src/utils/cache.ts (transcript part);
    - [Youtube]       src/lib/youtube.ts (retry-fetch protocol);
    - [Transcript]    src/tools/transcript.ts (resolution strategy);
    - [Index]         src/index.ts (the [tools/call] branch).

    Modelling conventions.  A JavaScript string is a Rocq [string]; one
    [ascii] stands for one UTF-16 code unit below 256.  [console.*] calls are
    dropped.  The third-party parser [url-parse] and the upstream scraper
    [YoutubeTranscript.fetchTranscript] are section variables: every general
    theorem holds for all of their behaviours. *)

From Stdlib Require Import String Ascii ZArith List Bool Lia.
From stdpp Require Import base option list gmap strings pretty.

Local Open Scope string_scope.
Local Open Scope Z_scope.
Local Open Scope list_scope.

(* ===================================================================== *)
(** * JavaScript strings *)
(* ===================================================================== *)

Module Js.

Definition code (c : ascii) : nat := nat_of_ascii c.

Definition LF : ascii := ascii_of_nat 10.

Definition isLF (c : ascii) : bool := Nat.eqb (code c) 10.

(** [s === ''], the only falsy string. *)
Definition isEmpty (s : string) : bool :=
  match s with EmptyString => true | String _ _ => false end.

(** Truthiness of a string: [if (s)], [!!s], [s && ...]. *)
Definition truthy (s : string) : bool := negb (isEmpty s).

(** [s.startsWith(p)]. *)
Definition startsWith (s p : string) : bool := String.prefix p s.

(** [s.includes(needle)]. *)
Fixpoint includes (s needle : string) : bool :=
  String.prefix needle s ||
  match s with
  | EmptyString => false
  | String _ s' => includes s' needle
  end.

(** [s.substring(n)]. *)
Fixpoint substringFrom (n : nat) (s : string) : string :=
  match n, s with
  | O, _ => s
  | S _, EmptyString => EmptyString
  | S n', String _ s' => substringFrom n' s'
  end.

(** [String.prototype.toLowerCase] on code units below 256: A-Z and the
    Latin-1 capitals U+00C0..U+00DE (U+00D7 apart) move up by 32. *)
Definition lowerChar (c : ascii) : ascii :=
  let n := code c in
  if (Nat.leb 65 n && Nat.leb n 90)
     || (Nat.leb 192 n && Nat.leb n 222 && negb (Nat.eqb n 215))
  then ascii_of_nat (n + 32) else c.

Fixpoint toLowerCase (s : string) : string :=
  match s with
  | EmptyString => EmptyString
  | String c s' => String (lowerChar c) (toLowerCase s')
  end.

(** WhiteSpace and LineTerminator code units below 256 (what [trim]
    strips): TAB, LF, VT, FF, CR, SP, NBSP. *)
Definition isWhiteSpace (c : ascii) : bool :=
  let n := code c in
  (Nat.leb 9 n && Nat.leb n 13) || Nat.eqb n 32 || Nat.eqb n 160.

Fixpoint trimStart (s : string) : string :=
  match s with
  | EmptyString => EmptyString
  | String c s' => if isWhiteSpace c then trimStart s' else s
  end.

Fixpoint trimEnd (s : string) : string :=
  match s with
  | EmptyString => EmptyString
  | String c s' =>
      let r := trimEnd s' in
      if isEmpty r && isWhiteSpace c then EmptyString else String c r
  end.

(** [s.trim()]. *)
Definition trim (s : string) : string := trimEnd (trimStart s).

(** [s.replace(/\n+/g, '\n')]: the scanner walks left to right; at a line
    feed the greedy [\n+] consumes the whole run and one line feed is
    written.  [inRun] says that the previous unit belonged to the run being
    consumed. *)
Fixpoint replaceLFRuns (inRun : bool) (s : string) : string :=
  match s with
  | EmptyString => EmptyString
  | String c s' =>
      if isLF c
      then if inRun then replaceLFRuns true s'
           else String LF (replaceLFRuns true s')
      else String c (replaceLFRuns false s')
  end.

(** [arr.join(sep)]. *)
Fixpoint join (sep : string) (l : list string) : string :=
  match l with
  | [] => EmptyString
  | [x] => x
  | x :: rest => x +:+ sep +:+ join sep rest
  end.

(** [s.split(sep)] for a one-unit separator. *)
Fixpoint split (sep : ascii) (s : string) : list string :=
  match s with
  | EmptyString => [EmptyString]
  | String c s' =>
      if Ascii.eqb c sep then EmptyString :: split sep s'
      else match split sep s' with
           | h :: t => String c h :: t
           | [] => [String c EmptyString]
           end
  end.

(** [arr.includes(x)] on an array of strings. *)
Definition arrayIncludes (l : list string) (x : string) : bool :=
  existsb (String.eqb x) l.

(** [x || null] where [x] is a string or undefined. *)
Definition orNull (o : option string) : option string :=
  match o with
  | Some s => if truthy s then Some s else None
  | None => None
  end.

End Js.

(* ===================================================================== *)
(** * Completions *)
(* ===================================================================== *)

(** The error classes of src/lib/youtube.ts, and plain [Error]. *)
Inductive ErrorClass :=
| PlainError | VideoUnavailableError | RateLimitError | NetworkError
| InvalidVideoError.

Record JsError := mkError { errClass : ErrorClass; message : string }.

(** A call either returns or throws. *)
Inductive Completion (A : Type) :=
| Return (a : A)
| Throw (e : JsError).
Arguments Return {A} a.
Arguments Throw {A} e.

(* ===================================================================== *)
(** * src/utils/url-normalize.ts *)
(* ===================================================================== *)

Module UrlNormalize.

(** A query value as the code tests it: a string, or an array. *)
Inductive QueryValue :=
| QString (s : string)
| QArray (l : list string).

(** The fields of a [url-parse] object the code reads. *)
Record ParsedUrl := mkUrl {
  protocol : string;
  hostname : string;
  pathname : string;
  query : gmap string QueryValue;
}.

Definition validHostnames : list string :=
  [ "youtube.com"; "www.youtube.com"; "m.youtube.com"; "youtu.be";
    "youtube.co.uk"; "youtube.de"; "youtube.fr"; "youtube.jp"; "youtube.ca";
    "youtube.es"; "youtube.br"; "youtube.com.br"; "youtube.co.in";
    "youtube.co.kr" ].

(** [query.v] in a condition. *)
Definition queryTruthy (q : option QueryValue) : bool :=
  match q with
  | None => false
  | Some (QString s) => Js.truthy s
  | Some (QArray _) => true
  end.

(** [Array.isArray(query.v) ? query.v[0] : query.v], for a truthy
    [query.v]; [None] is [undefined]. *)
Definition firstValue (q : option QueryValue) : option string :=
  match q with
  | None => None
  | Some (QString s) => Some s
  | Some (QArray l) => head l
  end.

Definition slash : ascii := ascii_of_nat 47.

(** [None] is [null] (or [undefined]). *)
Definition extractVideoIdFromParsedUrl (parsedUrl : ParsedUrl)
  : option string :=
  let pathname := pathname parsedUrl in
  let query := query parsedUrl in
  if String.eqb (hostname parsedUrl) "youtu.be" then
    Js.orNull (Js.split slash pathname !! 1%nat)
  else if Js.startsWith pathname "/watch" && queryTruthy (query !! "v") then
    firstValue (query !! "v")
  else if Js.startsWith pathname "/live/" then
    Js.orNull (Js.split slash pathname !! 2%nat)
  else if Js.startsWith pathname "/embed/" then
    Js.orNull (Js.split slash pathname !! 2%nat)
  else if Js.startsWith pathname "/shorts/" then
    Js.orNull (Js.split slash pathname !! 2%nat)
  else if queryTruthy (query !! "v")
          && (String.eqb pathname "/" || String.eqb pathname "") then
    firstValue (query !! "v")
  else None.

(** The hostname test of [isValidYouTubeUrl]: strip one leading [www.],
    then look the rest up in [validHostnames]. *)
Definition hostnameAllowed (parsedUrl : ParsedUrl) : bool :=
  let hostname :=
    if Js.startsWith (hostname parsedUrl) "www."
    then Js.substringFrom 4 (hostname parsedUrl)
    else hostname parsedUrl in
  Js.arrayIncludes validHostnames hostname.

(** [!!videoId]. *)
Definition idTruthy (o : option string) : bool :=
  match o with Some s => Js.truthy s | None => false end.

Section WithParser.

(** [new Url(url, true)]; it may throw. *)
Variable Url : string -> Completion ParsedUrl.

(** No try/catch here: a parser exception propagates. *)
Definition isValidYouTubeUrl (url : string) : Completion bool :=
  if negb (Js.truthy url) then Return false
  else match Url url with
       | Throw e => Throw e
       | Return parsedUrl =>
           if negb (hostnameAllowed parsedUrl) then Return false
           else Return (idTruthy (extractVideoIdFromParsedUrl parsedUrl))
       end.

Definition extractVideoId (url : string) : option string :=
  if negb (Js.truthy url) then None
  else match Url url with
       | Throw _ => None
       | Return parsedUrl => extractVideoIdFromParsedUrl parsedUrl
       end.

Definition normalizeYouTubeUrl (url : string) : string :=
  match extractVideoId url with
  | Some videoId =>
      if Js.truthy videoId
      then "https://www.youtube.com/watch?v=" +:+ videoId
      else url
  | None => url
  end.

End WithParser.

Section CleanTracking.

Variable Url : string -> Completion ParsedUrl.

(** [parsedUrl.toString()] of url-parse, applied to the object after the
    three [set] calls of the last branch. *)
Variable toString : ParsedUrl -> string.

Definition canonicalWatchUrl (videoId : string) : string :=
  "https://www.youtube.com/watch?v=" +:+ videoId.

(** [None] stands for falling out of the [if (videoId)] block. *)
Definition cleanKnownShape (parsedUrl : ParsedUrl) (videoId : string)
  : option string :=
  if String.eqb (hostname parsedUrl) "youtu.be"
     || Js.startsWith (pathname parsedUrl) "/live/"
     || Js.startsWith (pathname parsedUrl) "/embed/"
     || Js.startsWith (pathname parsedUrl) "/shorts/"
  then Some (canonicalWatchUrl videoId)
  else if Js.startsWith (pathname parsedUrl) "/watch"
  then
    let protocol := if Js.truthy (protocol parsedUrl)
                    then protocol parsedUrl else "https" in
    Some (protocol +:+ "//www.youtube.com/watch?v=" +:+ videoId)
  else None.

(** The last branch: keep only [v] in the query, force the hostname of
    YouTube domains and the protocol, and print the URL. *)
Definition cleanRebuild (parsedUrl : ParsedUrl) : string :=
  let newQuery : gmap string QueryValue :=
    match query parsedUrl !! "v" with
    | Some v => if queryTruthy (Some v) then {[ "v" := v ]} else ∅
    | None => ∅
    end in
  let hostname' :=
    if Js.truthy (hostname parsedUrl)
       && Js.includes (hostname parsedUrl) "youtube."
    then "www.youtube.com" else hostname parsedUrl in
  toString (mkUrl "https" hostname' (pathname parsedUrl) newQuery).

Definition cleanTrackingParams (url : string) : string :=
  if negb (Js.truthy url) then url
  else match Url url with
       | Throw _ => url
       | Return parsedUrl =>
           let known :=
             match extractVideoIdFromParsedUrl parsedUrl with
             | Some videoId =>
                 if Js.truthy videoId then cleanKnownShape parsedUrl videoId
                 else None
             | None => None
             end in
           match known with
           | Some cleaned => cleaned
           | None => cleanRebuild parsedUrl
           end
       end.

End CleanTracking.

End UrlNormalize.

(* ===================================================================== *)
(** * A concrete reading of [url-parse] for absolute URLs *)
(* ===================================================================== *)

(** [url-parse] is a third-party package.  The general theorems quantify
    over every parser; this module fixes one so that examples can be run.
    It reads [scheme://host/path?query#fragment] the way [new Url(url, true)]
    does for such input: protocol and host in lower case, an empty path
    becomes [/], and the query string is cut at [&] and [=] with the first
    occurrence of a key winning (so no value is ever an array).  User info,
    ports, percent escapes and relative references are outside its domain. *)
Module UrlParse.

Import UrlNormalize.

(** Cut [s] at the first occurrence of [sep]. *)
Fixpoint cutAt (sep s : string) : option (string * string) :=
  if String.prefix sep s then Some (EmptyString, Js.substringFrom (String.length sep) s)
  else match s with
       | EmptyString => None
       | String c s' =>
           match cutAt sep s' with
           | Some (b, a) => Some (String c b, a)
           | None => None
           end
       end.

(** Longest prefix whose units all satisfy [p], and the rest. *)
Fixpoint span (p : ascii -> bool) (s : string) : string * string :=
  match s with
  | EmptyString => (EmptyString, EmptyString)
  | String c s' =>
      if p c then let '(b, a) := span p s' in (String c b, a)
      else (EmptyString, s)
  end.

Definition isOneOf (cs : string) (c : ascii) : bool :=
  existsb (Ascii.eqb c) (list_ascii_of_string cs).

Definition parseQueryPart (part : string) (result : gmap string QueryValue)
  : gmap string QueryValue :=
  let '(key, rest) := span (fun c => negb (isOneOf "=" c)) part in
  let value := match rest with String _ v => v | EmptyString => EmptyString end in
  if Js.isEmpty key then result
  else match result !! key with
       | Some _ => result
       | None => <[key := QString value]> result
       end.

Definition parseQuery (qs : string) : gmap string QueryValue :=
  fold_left (fun acc part => parseQueryPart part acc)
            (Js.split (ascii_of_nat 38) qs) ∅.

Definition parse (url : string) : Completion ParsedUrl :=
  match cutAt "://" url with
  | None =>
      Return (mkUrl EmptyString EmptyString url ∅)
  | Some (scheme, rest) =>
      let '(host, rest1) := span (fun c => negb (isOneOf "/?#" c)) rest in
      let '(path, rest2) := span (fun c => negb (isOneOf "?#" c)) rest1 in
      let qs := match rest2 with
                | String c q =>
                    if isOneOf "?" c
                    then fst (span (fun c => negb (isOneOf "#" c)) q)
                    else EmptyString
                | EmptyString => EmptyString
                end in
      Return (mkUrl (Js.toLowerCase scheme +:+ ":") (Js.toLowerCase host)
                    (if Js.isEmpty path then "/" else path)
                    (parseQuery qs))
  end.

End UrlParse.

(* ===================================================================== *)
(** * The world, and the monad of effectful calls *)
(* ===================================================================== *)

Module Runtime.

(** One [TRANSCRIPT_CACHE.put(key, value, { expirationTtl })]. *)
Record KVPut := mkPut { putKey : string; putValue : string; putTtl : Z }.

(** What a request can observe and change.  [store] is the KV namespace
    (value and the TTL it was written with; reads are taken before expiry);
    the three logs are most-recent-first. *)
Record World := mkWorld {
  store : gmap string (string * Z);
  puts : list KVPut;
  upstreamCalls : list (string * string);
  timers : list Z;
}.

(** [env]: whether the [TRANSCRIPT_CACHE] binding is present. *)
Record Env := mkEnv { TRANSCRIPT_CACHE : bool }.

(** An async call: from a world to a completion and the world after it.
    [None] only arises when a fuelled loop runs out of fuel. *)
Definition M (A : Type) : Type := World -> option (Completion A * World).

Definition ret {A} (a : A) : M A := fun w => Some (Return a, w).

Definition throw {A} (e : JsError) : M A := fun w => Some (Throw e, w).

Definition bind {A B} (m : M A) (k : A -> M B) : M B := fun w =>
  match m w with
  | None => None
  | Some (Throw e, w') => Some (Throw e, w')
  | Some (Return a, w') => k a w'
  end.

(** [try { m } catch (e) { ... }] with the outcome handed to the caller:
    effects performed before the throw stay. *)
Definition attempt {A} (m : M A) : M (Completion A) := fun w =>
  match m w with
  | None => None
  | Some (c, w') => Some (Return c, w')
  end.

(** [if (c) { await m }]. *)
Definition when (c : bool) (m : M unit) : M unit :=
  if c then m else ret tt.

End Runtime.

Notation "'let*' x ':=' m 'in' k" := (Runtime.bind m (fun x => k))
  (at level 10, x name, m at level 100, k at level 200).
Notation "'run*' m 'in' k" := (Runtime.bind m (fun _ => k))
  (at level 10, m at level 100, k at level 200).

(* ===================================================================== *)
(** * src/utils/cache.ts (transcript entries) *)
(* ===================================================================== *)

(** The analytics counters of the same file live under keys that begin with
    [analytics:] and are fire-and-forget; they are not part of this model.
    The KV namespace is taken to answer every [get] and [put]: the [catch]
    branches that turn a KV exception into a miss or a skipped write are not
    modelled. *)
Module Cache.

Import Runtime.

Definition SUCCESSFUL_TRANSCRIPT_TTL_SECONDS : Z := 60 * 60 * 24 * 7.
Definition ERROR_RESPONSE_TTL_SECONDS : Z := 60 * 5.

Definition getTranscriptCacheKey (videoId language : string) : string :=
  "transcript:" +:+ videoId +:+ ":" +:+ language.

(** [None] is [null]. *)
Definition getCachedTranscript (env : Env) (videoId language : string)
  : M (option string) :=
  if negb (TRANSCRIPT_CACHE env) then ret None
  else
    let cacheKey := getTranscriptCacheKey videoId language in
    fun w => Some (Return (fst <$> store w !! cacheKey), w).

Definition setCachedTranscript (env : Env) (videoId language data : string)
           (isError : bool) : M unit :=
  if negb (TRANSCRIPT_CACHE env) then ret tt
  else
    let cacheKey := getTranscriptCacheKey videoId language in
    let ttl := if isError then ERROR_RESPONSE_TTL_SECONDS
               else SUCCESSFUL_TRANSCRIPT_TTL_SECONDS in
    fun w => Some (Return tt,
                   mkWorld (<[cacheKey := (data, ttl)]> (store w))
                           (mkPut cacheKey data ttl :: puts w)
                           (upstreamCalls w) (timers w)).

(** The test every reader applies to a cached value:
    [cachedData.startsWith('Error:')]. *)
Definition isStoredError (cachedData : string) : bool :=
  Js.startsWith cachedData "Error:".

End Cache.

(* ===================================================================== *)
(** * src/lib/youtube.ts: the retry-fetch protocol *)
(* ===================================================================== *)

Module Youtube.

Import Runtime.

Definition MAX_RETRIES : nat := 3.
Definition INITIAL_BACKOFF_MS : Z := 1000.

(** One caption segment; only [text] is read. *)
Record TranscriptItem := mkItem { text : string }.

(** One answer of [YoutubeTranscript.fetchTranscript]: the segments, or a
    thrown [Error] of which only [message] is inspected. *)
Inductive UpstreamResult :=
| Segments (rawTranscript : list TranscriptItem)
| Failure (msg : string).

Definition sanitizeTranscriptText (transcript : string) : string :=
  if negb (Js.truthy transcript) then EmptyString
  else Js.trim (Js.replaceLFRuns false transcript).

(** [None] is an [undefined] error value. *)
Definition handleYouTubeErrors (error : option JsError) : string :=
  match error with
  | Some (mkError VideoUnavailableError _) =>
      "No transcript available for this video."
  | Some (mkError RateLimitError _) =>
      "Service temporarily busy, try again in a few minutes."
  | Some (mkError NetworkError _) =>
      "Unable to fetch transcript, please try again."
  | Some (mkError InvalidVideoError _) =>
      "Video not found or private."
  | Some (mkError PlainError m) =>
      if Js.truthy m
         && (Js.includes m "not found or private"
             || Js.includes m "Invalid video ID")
      then "Video not found or private."
      else if Js.truthy m && Js.includes m "transcripts disabled"
      then "Transcripts are disabled for this video."
      else if Js.truthy m && Js.includes m "No transcript found"
      then "No transcript available for this video."
      else "An unexpected error occurred while fetching the transcript."
  | None => "An unexpected error occurred while fetching the transcript."
  end.

(** The conditions of the [catch] block of [getTranscript], in the order
    the code tests them. *)
Inductive FailureKind :=
| NetworkShaped | RateLimitShaped | NoTranscriptShaped | InvalidVideoShaped
| OtherShaped.

Definition classify (msg : string) : FailureKind :=
  if Js.truthy msg
     && (Js.includes msg "timed out" || Js.includes msg "network"
         || Js.includes msg "ECONNRESET")
  then NetworkShaped
  else if Js.truthy msg
          && (Js.includes (Js.toLowerCase msg) "too many requests"
              || Js.includes msg "429" || Js.includes msg "403")
  then RateLimitShaped
  else if Js.truthy msg
          && (Js.includes msg "No transcript found for this video"
              || Js.includes msg "transcripts are disabled")
  then NoTranscriptShaped
  else if Js.truthy msg
          && (Js.includes msg "This video is unavailable"
              || Js.includes msg "Video not found or private"
              || Js.includes msg "Invalid video ID")
  then InvalidVideoShaped
  else OtherShaped.

(** [await new Promise(resolve => setTimeout(resolve, ms))]. *)
Definition sleep (ms : Z) : M unit := fun w =>
  Some (Return tt,
        mkWorld (store w) (puts w) (upstreamCalls w) (ms :: timers w)).

Section WithUpstream.

(** The scraper: its answer to a call may depend on every call made
    before it (most recent first). *)
Variable fetchTranscript :
  list (string * string) -> string -> string -> UpstreamResult.

Definition callUpstream (videoId language : string) : M UpstreamResult :=
  fun w =>
    Some (Return (fetchTranscript (upstreamCalls w) videoId language),
          mkWorld (store w) (puts w)
                  ((videoId, language) :: upstreamCalls w) (timers w)).

(** The [while (attempts < MAX_RETRIES)] loop.  [fuel] bounds the number
    of iterations; [getTranscript_total] shows it is never used up. *)
Fixpoint retryLoop (fuel : nat) (videoId language : string)
         (attempts : nat) (backoff : Z) : M string :=
  match fuel with
  | O => fun _ => None
  | S fuel' =>
      if Nat.ltb attempts MAX_RETRIES then
        let* r := callUpstream videoId language in
        match r with
        | Segments rawTranscript =>
            let fullText := Js.join " " (map text rawTranscript) in
            ret (sanitizeTranscriptText fullText)
        | Failure msg =>
            let attempts := S attempts in
            match classify msg with
            | NetworkShaped =>
                if Nat.leb MAX_RETRIES attempts
                then throw (mkError NetworkError
                       ("Network error after " +:+ pretty attempts
                        +:+ " attempts: " +:+ msg))
                else run* sleep backoff in
                     retryLoop fuel' videoId language attempts (backoff * 2)
            | RateLimitShaped =>
                if Nat.leb MAX_RETRIES attempts
                then throw (mkError RateLimitError
                       ("Rate limited after " +:+ pretty attempts
                        +:+ " attempts: " +:+ msg))
                else run* sleep (backoff * (Z.of_nat attempts + 1)) in
                     retryLoop fuel' videoId language attempts (backoff * 2)
            | NoTranscriptShaped =>
                throw (mkError VideoUnavailableError
                  ("No transcript found for " +:+ videoId +:+ " (lang: "
                   +:+ language +:+ "). Transcripts may be disabled."))
            | InvalidVideoShaped =>
                throw (mkError InvalidVideoError
                  ("Video " +:+ videoId +:+ " not found or is private."))
            | OtherShaped =>
                if Nat.leb MAX_RETRIES attempts
                then throw (mkError PlainError
                       ("Failed to fetch transcript for " +:+ videoId
                        +:+ " after " +:+ pretty MAX_RETRIES
                        +:+ " attempts: " +:+ msg))
                else run* sleep backoff in
                     retryLoop fuel' videoId language attempts (backoff * 2)
            end
        end
      else
        throw (mkError PlainError
                 ("Failed to fetch transcript for " +:+ videoId +:+ " after "
                  +:+ pretty MAX_RETRIES +:+ " attempts."))
  end.

Definition getTranscript (videoId language : string) : M string :=
  retryLoop (S MAX_RETRIES) videoId language 0%nat INITIAL_BACKOFF_MS.

(** One direct call of the scraper for English; both branches of the
    [catch] answer false. *)
Definition validateVideoAvailability (videoId : string) : M bool :=
  let* r := callUpstream videoId "en" in
  match r with
  | Segments _ => ret true
  | Failure msg =>
      if Js.truthy msg
         && (Js.includes msg "not found or private"
             || Js.includes msg "transcripts disabled"
             || Js.includes msg "No transcript found")
      then ret false
      else ret false
  end.

End WithUpstream.

End Youtube.

(* ===================================================================== *)
(** * src/tools/transcript.ts: the resolution strategy *)
(* ===================================================================== *)

Module Transcript.

Import Runtime.

Definition languagesToTry : list string :=
  [ "en"; "es"; "fr"; "de"; "tr"; "pt"; "ja"; "ko"; "zh"; "it"; "ru"; "ar" ].

(** The two line feeds between a note and the transcript. *)
Definition blankLine : string := String Js.LF (String Js.LF EmptyString).

Definition autoDetectedNote (lang transcript : string) : string :=
  "[Auto-detected language: " +:+ lang +:+ "]" +:+ blankLine +:+ transcript.

Definition fallbackNote (requestedLanguage transcript : string) : string :=
  "[Requested language '" +:+ requestedLanguage
  +:+ "' not available, showing English instead]" +:+ blankLine
  +:+ transcript.

Definition isLanguageRelatedError (error : JsError) : bool :=
  if negb (Js.truthy (message error)) then false
  else
    let message := Js.toLowerCase (message error) in
    Js.includes message "language"
    || Js.includes message "subtitle"
    || Js.includes message "caption"
    || Js.includes message "transcript"
    || Js.includes message "not available"
    || Js.includes message "no transcript found".

(** [cachedData && !cachedData.startsWith('Error:')]. *)
Definition isCachedTranscript (cachedData : option string) : bool :=
  match cachedData with
  | Some d => Js.truthy d && negb (Cache.isStoredError d)
  | None => false
  end.

Section WithCollaborators.

Variable Url : string -> Completion UrlNormalize.ParsedUrl.
Variable fetchTranscript :
  list (string * string) -> string -> string -> Youtube.UpstreamResult.

(** [getTranscript as fetchTranscriptFromYouTube] of ../lib/youtube. *)
Definition fetchTranscriptFromYouTube : string -> string -> M string :=
  Youtube.getTranscript fetchTranscript.

(** The [try] block of one round of the auto-detection loop. *)
Definition tryLanguage (videoId : string) (env : Env) (lang : string)
  : M string :=
  let* cachedData := Cache.getCachedTranscript env videoId lang in
  if isCachedTranscript cachedData then
    ret (default EmptyString cachedData)
  else
    let* transcript := fetchTranscriptFromYouTube videoId lang in
    run* when (TRANSCRIPT_CACHE env)
           (Cache.setCachedTranscript env videoId lang transcript false) in
    ret (autoDetectedNote lang transcript).

(** The [for (const lang of languagesToTry)] loop.  [inl] is a [return]
    from inside the loop; [inr] is the loop left (by exhaustion or by
    [break]) with the two variables it updates. *)
Fixpoint autoDetectionLoop (videoId : string) (env : Env)
         (langs : list string) (lastError : option JsError)
         (availableLanguages : list string)
  : M (string + option JsError * list string) :=
  match langs with
  | [] => ret (inr (lastError, availableLanguages))
  | lang :: rest =>
      let* c := attempt (tryLanguage videoId env lang) in
      match c with
      | Return result => ret (inl result)
      | Throw error =>
          let lastError := Some error in
          if negb (isLanguageRelatedError error)
          then ret (inr (lastError, availableLanguages))
          else autoDetectionLoop videoId env rest lastError
                 (availableLanguages
                    ++ [lang +:+ ": " +:+ message error])
      end
  end.

Definition getTranscriptWithAutoDetection (videoId : string) (env : Env)
  : M string :=
  let* r := autoDetectionLoop videoId env languagesToTry None [] in
  match r with
  | inl result => ret result
  | inr (lastError, availableLanguages) =>
      let errorMessage :=
        if Nat.ltb 0 (length availableLanguages)
        then "No transcript available in any tested language. Tried: "
             +:+ Js.join ", " availableLanguages
        else Youtube.handleYouTubeErrors lastError in
      throw (mkError PlainError errorMessage)
  end.

(** The outer [try] block of [getTranscriptWithFallback]. *)
Definition tryRequested (videoId : string) (env : Env)
           (requestedLanguage : string) : M string :=
  let fetchAndCache : M string :=
    let* transcript :=
      fetchTranscriptFromYouTube videoId requestedLanguage in
    run* when (TRANSCRIPT_CACHE env)
           (Cache.setCachedTranscript env videoId requestedLanguage
              transcript false) in
    ret transcript in
  let* cachedData :=
    Cache.getCachedTranscript env videoId requestedLanguage in
  match cachedData with
  | Some d =>
      if Js.truthy d then
        if Cache.isStoredError d then throw (mkError PlainError d)
        else ret d
      else fetchAndCache
  | None => fetchAndCache
  end.

(** The inner [try] block: the English fallback. *)
Definition tryEnglish (videoId : string) (env : Env)
           (requestedLanguage : string) : M string :=
  let* cachedEnglish := Cache.getCachedTranscript env videoId "en" in
  if isCachedTranscript cachedEnglish then
    ret (fallbackNote requestedLanguage (default EmptyString cachedEnglish))
  else
    let* englishTranscript := fetchTranscriptFromYouTube videoId "en" in
    run* when (TRANSCRIPT_CACHE env)
           (Cache.setCachedTranscript env videoId "en" englishTranscript
              false) in
    ret (fallbackNote requestedLanguage englishTranscript).

(** The outer [catch (error)] block.  The call of [logAnalyticsError] in its
    last branch is not awaited and touches analytics keys only; it is left
    out. *)
Definition catchRequested (videoId : string) (env : Env)
           (requestedLanguage : string) (error : JsError) : M string :=
  if isLanguageRelatedError error
     && negb (String.eqb requestedLanguage "en")
  then
    let* c := attempt (tryEnglish videoId env requestedLanguage) in
    match c with
    | Return result => ret result
    | Throw englishError =>
        run* when (TRANSCRIPT_CACHE env)
               (let errorMessage :=
                  Youtube.handleYouTubeErrors (Some error) in
                Cache.setCachedTranscript env videoId requestedLanguage
                  ("Error: " +:+ errorMessage) true) in
        throw (mkError PlainError
                 ("Transcript not available in '" +:+ requestedLanguage
                  +:+ "' and English fallback failed: "
                  +:+ Youtube.handleYouTubeErrors (Some englishError)))
    end
  else
    run* when (TRANSCRIPT_CACHE env)
           (let errorMessage :=
              Youtube.handleYouTubeErrors (Some error) in
            Cache.setCachedTranscript env videoId requestedLanguage
              ("Error: " +:+ errorMessage) true) in
    throw (mkError PlainError
             (Youtube.handleYouTubeErrors (Some error))).

Definition getTranscriptWithFallback (videoId : string) (env : Env)
           (requestedLanguage : string) : M string :=
  let* c := attempt (tryRequested videoId env requestedLanguage) in
  match c with
  | Return result => ret result
  | Throw error => catchRequested videoId env requestedLanguage error
  end.

(** The exported entry point.  The two analytics calls after the
    validation are not awaited and touch analytics keys only; they are
    left out. *)
Definition getTranscript (url : string) (env : Env) (language : string)
  : M string :=
  match UrlNormalize.isValidYouTubeUrl Url url with
  | Throw e => throw e
  | Return false =>
      throw (mkError PlainError "Invalid YouTube URL provided.")
  | Return true =>
      let normalizedUrl := UrlNormalize.normalizeYouTubeUrl Url url in
      match UrlNormalize.extractVideoId Url normalizedUrl with
      | None =>
          throw (mkError PlainError
                   "Could not extract video ID from the URL.")
      | Some videoId =>
          if negb (Js.truthy videoId)
          then throw (mkError PlainError
                        "Could not extract video ID from the URL.")
          else if String.eqb language "auto"
          then getTranscriptWithAutoDetection videoId env
          else getTranscriptWithFallback videoId env language
      end
  end.

End WithCollaborators.

End Transcript.

(* ===================================================================== *)
(** * src/index.ts: the [tools/call] branch of [handleRequest] *)
(* ===================================================================== *)

(** Only the branch that reaches the resolution is modelled; the static
    answers to [initialize] and [tools/list] and the HTTP and SSE framing are
    not. *)
Module Index.

Import Runtime.

(** The JSON-RPC answer, without the envelope fields [jsonrpc] and [id]:
    [result.content[0].text], or [error.code] and [error.message]. *)
Inductive Response :=
| ResultText (text : string)
| ErrorResponse (code : Z) (errorMessage : string).

Section WithCollaborators.

Variable Url : string -> Completion UrlNormalize.ParsedUrl.
Variable fetchTranscript :
  list (string * string) -> string -> string -> Youtube.UpstreamResult.

(** [language] is [None] when the argument is absent: the destructuring
    default ['en'] then applies.  Every value thrown in this model is an
    [Error], so the [instanceof] test of the [catch] always takes
    [error.message]. *)
Definition handleToolsCall (env : Env) (name url : string)
           (language : option string) : M Response :=
  if String.eqb name "get_transcript" then
    let language := default "en" language in
    let* c :=
      attempt (Transcript.getTranscript Url fetchTranscript url env language) in
    match c with
    | Return transcript => ret (ResultText transcript)
    | Throw error => ret (ErrorResponse (-1) (message error))
    end
  else ret (ErrorResponse (-32601) ("Unknown tool: " +:+ name)).

End WithCollaborators.

End Index.

(* ===================================================================== *)
(** * Vocabulary of the statements *)
(* ===================================================================== *)

(** The specification's own wording of sanitization, to be compared with
    [Youtube.sanitizeTranscriptText]. *)
Module SpecWords.

Import Js.

(** The words of the specification, "all runs of newline characters
    collapsed to one": a line feed directly followed by another one is
    dropped, every other unit is kept. *)
Fixpoint collapseNewlineRuns (s : string) : string :=
  match s with
  | EmptyString => EmptyString
  | String c s' =>
      if isLF c && match s' with
                   | String c' _ => isLF c'
                   | EmptyString => false
                   end
      then collapseNewlineRuns s'
      else String c (collapseNewlineRuns s')
  end.

(** "Collapsed newlines, trimmed ends". *)
Definition sanitizeSpec (s : string) : string :=
  trim (collapseNewlineRuns s).

End SpecWords.

(** Predicates on runs of effectful calls. *)
Module Logic.

Import Runtime Youtube.

(** [wp m Q w]: run from [w], the call [m] completes (it does not run out
    of fuel) and its completion and final world satisfy [Q]. *)
Definition wp {A} (m : M A) (Q : Completion A -> World -> Prop) (w : World)
  : Prop :=
  match m w with
  | Some (c, w') => Q c w'
  | None => False
  end.

(** A property of worlds that a call keeps, whatever its completion. *)
Definition preserves {A} (I : World -> Prop) (m : M A) : Prop :=
  forall w, I w -> wp m (fun _ w' => I w') w.

(** The world after one more upstream call for [(videoId, language)]. *)
Definition called (videoId language : string) (w : World) : World :=
  mkWorld (store w) (puts w) ((videoId, language) :: upstreamCalls w)
          (timers w).

(** The world after a timer of [ms] milliseconds has been awaited. *)
Definition slept (ms : Z) (w : World) : World :=
  mkWorld (store w) (puts w) (upstreamCalls w) (ms :: timers w).

(** What every run of the loop guarantees: the cache is left alone, the call
    log grows by [S n] calls for [(videoId, language)] and nothing else, the
    attempt counter stays within [MAX_RETRIES], a returned text is the
    sanitized join of the segments of the last answer, and a thrown error
    follows a failure as the last answer. *)
Definition retryPost
           (fetchTranscript :
              list (string * string) -> string -> string -> UpstreamResult)
           (videoId language : string) (attempts : nat) (w : World)
           (c : Completion string) (w' : World) : Prop :=
  store w' = store w /\ puts w' = puts w /\
  exists n,
    upstreamCalls w' = repeat (videoId, language) (S n) ++ upstreamCalls w
    /\ (S n + attempts <= MAX_RETRIES)%nat
    /\ match c with
       | Return t =>
           exists raw,
             fetchTranscript (repeat (videoId, language) n ++ upstreamCalls w)
                             videoId language = Segments raw
             /\ t = sanitizeTranscriptText (Js.join " " (map text raw))
       | Throw e =>
           exists msg,
             fetchTranscript (repeat (videoId, language) n ++ upstreamCalls w)
                             videoId language = Failure msg
       end.

(** What [Cache.getCachedTranscript] hands back in world [w]. *)
Definition cachedValue (env : Env) (w : World) (videoId language : string)
  : option string :=
  if TRANSCRIPT_CACHE env
  then fst <$> store w !! Cache.getTranscriptCacheKey videoId language
  else None.

(** A cache miss as the exact-language reader sees it: [null], or a value
    that is falsy. *)
Definition isMiss (cachedData : option string) : bool :=
  match cachedData with
  | Some d => negb (Js.truthy d)
  | None => true
  end.

(** The world after [Cache.setCachedTranscript] with a bound cache. *)
Definition written (videoId language data : string) (ttl : Z) (w : World)
  : World :=
  let cacheKey := Cache.getTranscriptCacheKey videoId language in
  mkWorld (<[cacheKey := (data, ttl)]> (store w))
          (mkPut cacheKey data ttl :: puts w) (upstreamCalls w) (timers w).

(** Since world [w0], the KV puts made are [new], all satisfying [P]. *)
Definition putsExtend (P : KVPut -> Prop) (w0 w : World) : Prop :=
  exists new, puts w = new ++ puts w0 /\ Forall P new.

(** The upstream call log has [base] as its oldest part. *)
Definition callsAbove (base : list (string * string)) (w : World) : Prop :=
  exists more, upstreamCalls w = more ++ base.

(** The puts a request for [(videoId, language)] can make. *)
Inductive resolutionPut (videoId language : string) : KVPut -> Prop :=
| put_candidate lang t :
    language = "auto" -> In lang Transcript.languagesToTry ->
    resolutionPut videoId language
      (mkPut (Cache.getTranscriptCacheKey videoId lang) t
             Cache.SUCCESSFUL_TRANSCRIPT_TTL_SECONDS)
| put_requested t :
    language <> "auto" ->
    resolutionPut videoId language
      (mkPut (Cache.getTranscriptCacheKey videoId language) t
             Cache.SUCCESSFUL_TRANSCRIPT_TTL_SECONDS)
| put_english t :
    language <> "auto" ->
    resolutionPut videoId language
      (mkPut (Cache.getTranscriptCacheKey videoId "en") t
             Cache.SUCCESSFUL_TRANSCRIPT_TTL_SECONDS)
| put_error msg :
    language <> "auto" ->
    resolutionPut videoId language
      (mkPut (Cache.getTranscriptCacheKey videoId language)
             ("Error: " +:+ msg) Cache.ERROR_RESPONSE_TTL_SECONDS).

(** Two line feeds in a row. *)
Definition LF2 : string := String Js.LF (String Js.LF EmptyString).

(** [s[0]] and [s[s.length - 1]]; [None] on the empty string. *)
Definition firstUnit (s : string) : option ascii :=
  match s with
  | EmptyString => None
  | String c _ => Some c
  end.

Fixpoint lastUnit (s : string) : option ascii :=
  match s with
  | EmptyString => None
  | String c s' => if Js.isEmpty s' then Some c else lastUnit s'
  end.

(** Sum of the delays of a list of timers. *)
Definition totalDelay (delays : list Z) : Z := fold_right Z.add 0 delays.

(** Whether the [catch] block of the retry loop goes round again on this
    message (when attempts are left): every kind but the two that throw at
    once. *)
Definition retryable (msg : string) : bool :=
  match classify msg with
  | NoTranscriptShaped | InvalidVideoShaped => false
  | _ => true
  end.

(** The delay awaited after failed attempt number [attempts] with the
    current [backoff]: longer for rate limits. *)
Definition delayFor (msg : string) (attempts : nat) (backoff : Z) : Z :=
  match classify msg with
  | RateLimitShaped => backoff * (Z.of_nat attempts + 1)
  | _ => backoff
  end.

(** The five errors [Youtube.getTranscript] can throw. *)
Inductive thrownBy (videoId language : string) : JsError -> Prop :=
| thrown_network msg :
    thrownBy videoId language
      (mkError NetworkError ("Network error after 3 attempts: " +:+ msg))
| thrown_rate msg :
    thrownBy videoId language
      (mkError RateLimitError ("Rate limited after 3 attempts: " +:+ msg))
| thrown_unavailable :
    thrownBy videoId language
      (mkError VideoUnavailableError
         ("No transcript found for " +:+ videoId +:+ " (lang: " +:+ language
          +:+ "). Transcripts may be disabled."))
| thrown_invalid :
    thrownBy videoId language
      (mkError InvalidVideoError
         ("Video " +:+ videoId +:+ " not found or is private."))
| thrown_generic msg :
    thrownBy videoId language
      (mkError PlainError
         ("Failed to fetch transcript for " +:+ videoId
          +:+ " after 3 attempts: " +:+ msg)).

(** Since world [w0], the upstream calls made are [new], all satisfying
    [P]. *)
Definition callsExtend (P : string * string -> Prop) (w0 w : World) : Prop :=
  exists new, upstreamCalls w = new ++ upstreamCalls w0 /\ Forall P new.

(** The call [m] makes at most [n] upstream calls, from every world. *)
Definition callsWithin {A} (n : nat) (m : M A) : Prop :=
  forall w,
    wp m (fun _ w' =>
            (length (upstreamCalls w') <= length (upstreamCalls w) + n)%nat) w.

(** The KV namespace is as in [w0]: same entries, no further put. *)
Definition kvSame (w0 w : World) : Prop :=
  store w = store w0 /\ puts w = puts w0.

(** The error thrown by the retry-fetch on a "no transcript" answer, and the
    entry the auto-detection loop records for it. *)
Definition unavailableError (videoId language : string) : JsError :=
  mkError VideoUnavailableError
    ("No transcript found for " +:+ videoId +:+ " (lang: " +:+ language
     +:+ "). Transcripts may be disabled.").

Definition triedEntry (videoId language : string) : string :=
  language +:+ ": " +:+ message (unavailableError videoId language).

(** The world after one upstream call for each of [langs], in order. *)
Definition calledEach (videoId : string) (langs : list string) (w : World)
  : World :=
  mkWorld (store w) (puts w)
          (map (pair videoId) (rev langs) ++ upstreamCalls w) (timers w).

(** The error the third attempt throws on a failure with message [msg]. *)
Definition terminalError (videoId language msg : string) : JsError :=
  match classify msg with
  | NetworkShaped =>
      mkError NetworkError ("Network error after 3 attempts: " +:+ msg)
  | RateLimitShaped =>
      mkError RateLimitError ("Rate limited after 3 attempts: " +:+ msg)
  | NoTranscriptShaped => unavailableError videoId language
  | InvalidVideoShaped =>
      mkError InvalidVideoError
        ("Video " +:+ videoId +:+ " not found or is private.")
  | OtherShaped =>
      mkError PlainError
        ("Failed to fetch transcript for " +:+ videoId
         +:+ " after 3 attempts: " +:+ msg)
  end.

End Logic.

(** Concrete inputs on which the code is run in examples. *)
Module Scenarios.

Import Runtime Youtube.

Definition offListUrl : string := "https://vimeo.com/watch?v=abc".

(** A fresh world: empty cache, nothing logged. *)
Definition emptyWorld : World := mkWorld ∅ [] [] [].

(** An upstream that answers the [n]-th call overall (from 0) with the
    [n]-th element of [answers], and with [final] afterwards. *)
Definition scripted (answers : list UpstreamResult) (final : UpstreamResult)
  : list (string * string) -> string -> string -> UpstreamResult :=
  fun history _ _ => nth (length history) answers final.

(** An upstream whose answer depends on the language only. *)
Definition perLanguage (answer : string -> UpstreamResult)
  : list (string * string) -> string -> string -> UpstreamResult :=
  fun _ _ language => answer language.

Definition item (t : string) : TranscriptItem := mkItem t.

(** The id used in the examples. *)
Definition vid : string := "dQw4w9WgXcQ".

(** First answer: no transcript; a second call would succeed. *)
Definition noTranscriptThenOk
  : list (string * string) -> string -> string -> UpstreamResult :=
  scripted [Failure "No transcript found for this video"]
           (Segments [item "never fetched"]).

(** Three transient failures in a row; a fourth call would succeed. *)
Definition throttled
  : list (string * string) -> string -> string -> UpstreamResult :=
  scripted [Failure "429"; Failure "request timed out";
            Failure "Too Many Requests"]
           (Segments [item "never fetched"]).

(** A connection reset, then two segments. *)
Definition resetThenSegments
  : list (string * string) -> string -> string -> UpstreamResult :=
  scripted [Failure "read ECONNRESET"]
           (Segments [item ("a" +:+ String Js.LF (String Js.LF EmptyString));
                      item "b "]).

(** A video with an English track only. *)
Definition onlyEnglish
  : list (string * string) -> string -> string -> UpstreamResult :=
  perLanguage (fun language =>
    if String.eqb language "en"
    then Segments [item "hello"; item "world"]
    else Failure "No transcript found for this video").

(** No English track, and the scraper is throttled from then on. *)
Definition noEnglishThenThrottled
  : list (string * string) -> string -> string -> UpstreamResult :=
  perLanguage (fun language =>
    if String.eqb language "en"
    then Failure "No transcript found for this video"
    else Failure "Too Many Requests").

(** A video whose captions begin with the word Error and a colon. *)
Definition errorSong
  : list (string * string) -> string -> string -> UpstreamResult :=
  perLanguage (fun _ => Segments [item "Error: 404 is my favourite song"]).

Definition bound : Env := mkEnv true.

(** A cache that holds one stored error, for [(vid, tr)]. *)
Definition withStoredError (stored : string) : World :=
  mkWorld {[ Cache.getTranscriptCacheKey vid "tr"
             := (stored, Cache.ERROR_RESPONSE_TTL_SECONDS) ]} [] [] [].

(** The string [a\n\n\nb  \n] of the sanitization example. *)
Definition rawExample : string :=
  "a" +:+ String Js.LF (String Js.LF (String Js.LF
    ("b  " +:+ String Js.LF EmptyString))).

(** The string [a\nb]. *)
Definition cleanExample : string := "a" +:+ String Js.LF "b".

(** A video without captions in any language. *)
Definition captionless
  : list (string * string) -> string -> string -> UpstreamResult :=
  perLanguage (fun _ => Failure "No transcript found for this video").

(** A video with a Spanish track only. *)
Definition onlySpanish
  : list (string * string) -> string -> string -> UpstreamResult :=
  perLanguage (fun language =>
    if String.eqb language "es"
    then Segments [item "hola"; item "mundo"]
    else Failure "No transcript found for this video").

(** An upstream that fails every call with a message of no known shape. *)
Definition alwaysBoom
  : list (string * string) -> string -> string -> UpstreamResult :=
  perLanguage (fun _ => Failure "boom").

Definition unbound : Env := mkEnv false.

(** Turkish has no track on the first upstream call and is throttled on
    every later one; English always has its track. *)
Definition turkishThenThrottled
  : list (string * string) -> string -> string -> UpstreamResult :=
  fun history _ language =>
    if String.eqb language "en"
    then Segments [item "hello"; item "world"]
    else match history with
         | [] => Failure "No transcript found for this video"
         | _ :: _ => Failure "Too Many Requests"
         end.

End Scenarios.

(* ===================================================================== *)
(** * Facts about the string operations *)
(* ===================================================================== *)

Module JsFacts.

Import Js SpecWords.

Lemma isLF_eq (c : ascii) : isLF c = true -> c = LF.
Proof.
  unfold isLF, code, LF. intros H. apply Nat.eqb_eq in H.
  rewrite <- (ascii_nat_embedding c). now rewrite H.
Qed.

Lemma isLF_LF : isLF LF = true.
Proof. reflexivity. Qed.

Lemma collapse_LF_cons (s : string) :
  collapseNewlineRuns (String LF s) =
  match s with
  | String c' _ => if isLF c' then collapseNewlineRuns s
                   else String LF (collapseNewlineRuns s)
  | EmptyString => String LF EmptyString
  end.
Proof. destruct s as [|c' s']; [reflexivity|]. cbn [collapseNewlineRuns].
       rewrite isLF_LF. cbn [andb]. destruct (isLF c'); reflexivity. Qed.

Lemma replaceLFRuns_collapse (s : string) :
  replaceLFRuns false s = collapseNewlineRuns s
  /\ String LF (replaceLFRuns true s) = collapseNewlineRuns (String LF s).
Proof.
  induction s as [|c s' [IHf IHt]].
  - split; reflexivity.
  - split.
    + cbn [replaceLFRuns]. destruct (isLF c) eqn:Hc.
      * apply isLF_eq in Hc. subst c. exact IHt.
      * rewrite IHf. cbn [collapseNewlineRuns]. now rewrite Hc.
    + rewrite collapse_LF_cons. cbn [replaceLFRuns].
      destruct (isLF c) eqn:Hc.
      * pose proof (isLF_eq _ Hc) as ->. exact IHt.
      * rewrite IHf. cbn [collapseNewlineRuns]. now rewrite Hc.
Qed.

Lemma append_inj_l (p a b : string) : p +:+ a = p +:+ b -> a = b.
Proof.
  induction p as [|c p IH]; cbn; intros H; [exact H|].
  injection H as H. auto.
Qed.

Lemma prefix_append (p s : string) : String.prefix p (p +:+ s) = true.
Proof.
  induction p as [|c p IH]; simpl.
  - now destruct s.
  - destruct (ascii_dec c c); [exact IH | contradiction].
Qed.

Lemma startsWith_append (p s : string) : startsWith (p +:+ s) p = true.
Proof. apply prefix_append. Qed.

End JsFacts.

(* ===================================================================== *)
(** * URL resolver: validation against extraction *)
(* ===================================================================== *)

Module UrlFacts.

Import UrlNormalize Scenarios.

(** C4, counterexample.  On [https://vimeo.com/watch?v=abc] the hostname is
    not on the allow-list and validation answers false, yet [extractVideoId]
    returns the identifier [abc]. *)
Lemma extractVideoId_ignores_hostname :
  UrlParse.parse offListUrl
  = Return (mkUrl "https:" "vimeo.com" "/watch" {[ "v" := QString "abc" ]})
  /\ hostnameAllowed
       (mkUrl "https:" "vimeo.com" "/watch" {[ "v" := QString "abc" ]})
     = false
  /\ isValidYouTubeUrl UrlParse.parse offListUrl = Return false
  /\ extractVideoId UrlParse.parse offListUrl = Some "abc".
Proof. repeat split; vm_compute; reflexivity. Qed.

(** The supported shapes all give the same identifier, and validate. *)
Example extractVideoId_shapes :
  map (extractVideoId UrlParse.parse)
      [ "https://www.youtube.com/watch?v=dQw4w9WgXcQ&t=43s";
        "https://youtu.be/dQw4w9WgXcQ?si=abc";
        "https://www.youtube.com/live/dQw4w9WgXcQ?feature=share";
        "https://www.youtube.com/embed/dQw4w9WgXcQ";
        "https://youtube.co.uk/shorts/dQw4w9WgXcQ";
        "https://m.youtube.com/?v=dQw4w9WgXcQ" ]
  = repeat (Some vid) 6
  /\ map (isValidYouTubeUrl UrlParse.parse)
         [ "https://www.youtube.com/watch?v=dQw4w9WgXcQ&t=43s";
           "https://youtu.be/dQw4w9WgXcQ?si=abc";
           "https://youtube.co.uk/shorts/dQw4w9WgXcQ";
           "https://www.youtube.com/playlist?list=PL1";
           "" ]
     = [Return true; Return true; Return true; Return false; Return false].
Proof. split; vm_compute; reflexivity. Qed.

Section WithParser.

Variable Url : string -> Completion ParsedUrl.

(** C4, amended.  Validation answers true exactly when the URL parses,
    its hostname (one leading [www.] stripped) is on the allow-list, and
    [extractVideoId] returns a non-empty identifier. *)
Theorem isValidYouTubeUrl_iff_allowed_and_extractable (url : string) :
  isValidYouTubeUrl Url url = Return true
  <-> exists parsedUrl videoId,
        Url url = Return parsedUrl
        /\ hostnameAllowed parsedUrl = true
        /\ extractVideoId Url url = Some videoId
        /\ videoId <> EmptyString.
Proof.
  unfold isValidYouTubeUrl, extractVideoId.
  destruct (Js.truthy url); cbn [negb].
  2:{ split; [discriminate|]. intros (p & v & _ & _ & H & _). discriminate. }
  destruct (Url url) as [p|e].
  2:{ split; [discriminate|]. intros (p & v & H & _). discriminate. }
  destruct (hostnameAllowed p) eqn:Hh; cbn [negb].
  2:{ split; [discriminate|]. intros (p' & v & H & Hh' & _).
      injection H as <-. congruence. }
  destruct (extractVideoIdFromParsedUrl p) as [v|] eqn:Hv; cbn [idTruthy].
  2:{ split; [discriminate|]. intros (p' & v & _ & _ & H & _). discriminate. }
  destruct v as [|c v']; cbn.
  - split; [discriminate|]. intros (p' & v & _ & _ & H & Hne).
    injection H as <-. contradiction.
  - split; [|reflexivity]. intros _. exists p, (String c v').
    repeat split; auto.
Qed.

End WithParser.

End UrlFacts.

(* ===================================================================== *)
(** * Reasoning about effectful calls *)
(* ===================================================================== *)

Module RuntimeFacts.

Import Runtime Logic.

Lemma wp_elim {A} (m : M A) Q w :
  wp m Q w -> exists c w', m w = Some (c, w') /\ Q c w'.
Proof.
  unfold wp. destruct (m w) as [[c w']|]; [eauto | contradiction].
Qed.

Lemma wp_intro {A} (m : M A) (Q : Completion A -> World -> Prop) w c w' :
  m w = Some (c, w') -> Q c w' -> wp m Q w.
Proof. unfold wp. now intros ->. Qed.

Lemma wp_mono {A} (m : M A) (Q Q' : Completion A -> World -> Prop) w :
  (forall c w', Q c w' -> Q' c w') -> wp m Q w -> wp m Q' w.
Proof. unfold wp. destruct (m w) as [[c w']|]; auto. Qed.

Lemma wp_ret {A} (a : A) (Q : Completion A -> World -> Prop) w :
  Q (Return a) w -> wp (ret a) Q w.
Proof. exact (fun H => H). Qed.

Lemma wp_throw {A} e (Q : Completion A -> World -> Prop) w :
  Q (Throw e) w -> wp (throw e) Q w.
Proof. exact (fun H => H). Qed.

Lemma wp_bind {A B} (m : M A) (k : A -> M B) Q w :
  wp m (fun c w' => match c with
                    | Return a => wp (k a) Q w'
                    | Throw e => Q (Throw e) w'
                    end) w ->
  wp (bind m k) Q w.
Proof.
  unfold wp, bind. destruct (m w) as [[[a|e] w']|]; auto.
Qed.

Lemma wp_attempt {A} (m : M A) (Q : Completion (Completion A) -> World -> Prop) w :
  wp m (fun c w' => Q (Return c) w') w -> wp (attempt m) Q w.
Proof.
  unfold wp, attempt. destruct (m w) as [[c w']|]; auto.
Qed.

Lemma preserves_ret {A} I (a : A) : preserves I (ret a).
Proof. intros w H. exact H. Qed.

Lemma preserves_throw {A} I e : preserves I (@throw A e).
Proof. intros w H. exact H. Qed.

Lemma preserves_bind {A B} I (m : M A) (k : A -> M B) :
  preserves I m -> (forall a, preserves I (k a)) -> preserves I (bind m k).
Proof.
  intros Hm Hk w Hw. apply wp_bind.
  eapply wp_mono; [|exact (Hm w Hw)].
  intros [a|e] w' Hw'; [exact (Hk a w' Hw') | exact Hw'].
Qed.

Lemma preserves_attempt {A} I (m : M A) :
  preserves I m -> preserves I (attempt m).
Proof. intros Hm w Hw. apply wp_attempt. exact (Hm w Hw). Qed.

Lemma preserves_when I c (m : M unit) :
  preserves I m -> preserves I (when c m).
Proof. intros Hm. destruct c; [exact Hm | apply preserves_ret]. Qed.

End RuntimeFacts.

(* ===================================================================== *)
(** * Retry-fetch protocol: facts *)
(* ===================================================================== *)

Module YoutubeFacts.

Import Runtime Logic RuntimeFacts Youtube.

Section WithUpstream.

Variable fetchTranscript :
  list (string * string) -> string -> string -> UpstreamResult.

Local Abbreviation retryLoop := (retryLoop fetchTranscript).
Local Abbreviation getTranscript := (getTranscript fetchTranscript).
Local Abbreviation retryPost := (retryPost fetchTranscript).

(** One iteration of the loop, spelled out. *)
Lemma retryLoop_Segments fuel videoId language attempts backoff w raw :
  Nat.ltb attempts MAX_RETRIES = true ->
  fetchTranscript (upstreamCalls w) videoId language = Segments raw ->
  retryLoop (S fuel) videoId language attempts backoff w
  = Some (Return (sanitizeTranscriptText (Js.join " " (map text raw))),
          called videoId language w).
Proof.
  intros Hlt Hf. cbn [Youtube.retryLoop]. rewrite Hlt.
  unfold bind, callUpstream. rewrite Hf. reflexivity.
Qed.

Lemma retryLoop_Failure fuel videoId language attempts backoff w msg :
  Nat.ltb attempts MAX_RETRIES = true ->
  fetchTranscript (upstreamCalls w) videoId language = Failure msg ->
  retryLoop (S fuel) videoId language attempts backoff w
  = let w1 := called videoId language w in
    match classify msg with
    | NetworkShaped =>
        if Nat.leb MAX_RETRIES (S attempts)
        then Some (Throw (mkError NetworkError
                     ("Network error after " +:+ pretty (S attempts)
                      +:+ " attempts: " +:+ msg)), w1)
        else retryLoop fuel videoId language (S attempts) (backoff * 2)
               (slept backoff w1)
    | RateLimitShaped =>
        if Nat.leb MAX_RETRIES (S attempts)
        then Some (Throw (mkError RateLimitError
                     ("Rate limited after " +:+ pretty (S attempts)
                      +:+ " attempts: " +:+ msg)), w1)
        else retryLoop fuel videoId language (S attempts) (backoff * 2)
               (slept (backoff * (Z.of_nat (S attempts) + 1)) w1)
    | NoTranscriptShaped =>
        Some (Throw (mkError VideoUnavailableError
                ("No transcript found for " +:+ videoId +:+ " (lang: "
                 +:+ language +:+ "). Transcripts may be disabled.")), w1)
    | InvalidVideoShaped =>
        Some (Throw (mkError InvalidVideoError
                ("Video " +:+ videoId +:+ " not found or is private.")), w1)
    | OtherShaped =>
        if Nat.leb MAX_RETRIES (S attempts)
        then Some (Throw (mkError PlainError
                     ("Failed to fetch transcript for " +:+ videoId
                      +:+ " after " +:+ pretty MAX_RETRIES
                      +:+ " attempts: " +:+ msg)), w1)
        else retryLoop fuel videoId language (S attempts) (backoff * 2)
               (slept backoff w1)
    end.
Proof.
  intros Hlt Hf. cbn [Youtube.retryLoop]. rewrite Hlt.
  unfold bind at 1. unfold callUpstream at 1. rewrite Hf. cbv zeta.
  destruct (classify msg); try reflexivity;
    destruct (Nat.leb MAX_RETRIES (S attempts)); reflexivity.
Qed.

Lemma repeat_snoc_app {A} (x : A) n (rest : list A) :
  repeat x n ++ x :: rest = repeat x (S n) ++ rest.
Proof.
  induction n as [|n IH]; [reflexivity|]. cbn [repeat app] in *. now rewrite IH.
Qed.

Lemma retryPost_step videoId language attempts backoff w c w' :
  retryPost videoId language (S attempts)
            (slept backoff (called videoId language w)) c w' ->
  retryPost videoId language attempts w c w'.
Proof.
  intros (Hs & Hp & n & Hc & Hle & Hlast). cbn in Hs, Hp, Hc, Hlast.
  split; [exact Hs|]. split; [exact Hp|]. exists (S n).
  rewrite repeat_snoc_app in Hc, Hlast.
  split; [exact Hc|]. split; [lia|]. exact Hlast.
Qed.

Lemma retryLoop_post fuel videoId language :
  forall attempts backoff w,
    (attempts < MAX_RETRIES)%nat ->
    (MAX_RETRIES < fuel + attempts)%nat ->
    wp (retryLoop fuel videoId language attempts backoff)
       (retryPost videoId language attempts w) w.
Proof.
  induction fuel as [|fuel IH]; intros attempts backoff w Hlt Hfuel; [lia|].
  assert (Hltb : Nat.ltb attempts MAX_RETRIES = true)
    by now apply Nat.ltb_lt.
  assert (Hstop : forall e msg,
             fetchTranscript (upstreamCalls w) videoId language = Failure msg ->
             retryPost videoId language attempts w (Throw e)
                       (called videoId language w)).
  { intros e msg Hf. split; [reflexivity|]. split; [reflexivity|].
    exists 0%nat. cbn. split; [reflexivity|]. split; [lia|]. eauto. }
  assert (Hnext : forall ms msg,
             fetchTranscript (upstreamCalls w) videoId language = Failure msg ->
             Nat.leb MAX_RETRIES (S attempts) = false ->
             wp (retryLoop fuel videoId language (S attempts) (backoff * 2))
                (retryPost videoId language attempts w)
                (slept ms (called videoId language w))).
  { intros ms msg Hf Hleb. apply Nat.leb_gt in Hleb.
    eapply wp_mono; [|apply IH; lia].
    intros c w'. apply retryPost_step. }
  unfold wp.
  destruct (fetchTranscript (upstreamCalls w) videoId language)
    as [raw|msg] eqn:Hf.
  - rewrite (retryLoop_Segments _ _ _ _ _ _ _ Hltb Hf).
    split; [reflexivity|]. split; [reflexivity|]. exists 0%nat. cbn.
    split; [reflexivity|]. split; [lia|]. eauto.
  - rewrite (retryLoop_Failure _ _ _ _ _ _ _ Hltb Hf). cbv zeta.
    destruct (classify msg);
      first [ eapply Hstop; reflexivity
            | destruct (Nat.leb MAX_RETRIES (S attempts)) eqn:Hleb;
              [ eapply Hstop; reflexivity
              | eapply Hnext; reflexivity ] ].
Qed.

Lemma getTranscript_post videoId language w :
  wp (getTranscript videoId language) (retryPost videoId language 0 w) w.
Proof. apply retryLoop_post; unfold MAX_RETRIES; lia. Qed.

(** The loop never runs out of fuel: every call of [getTranscript] returns
    or throws. *)
Lemma getTranscript_total videoId language w :
  exists c w', getTranscript videoId language w = Some (c, w').
Proof.
  destruct (wp_elim _ _ _ (getTranscript_post videoId language w))
    as (c & w' & H & _). eauto.
Qed.

Lemma sanitizeTranscriptText_spec (s : string) :
  sanitizeTranscriptText s = SpecWords.sanitizeSpec s.
Proof.
  unfold sanitizeTranscriptText, SpecWords.sanitizeSpec.
  destruct s as [|c s']; [reflexivity|]. cbn [Js.truthy Js.isEmpty negb].
  now rewrite (proj1 (JsFacts.replaceLFRuns_collapse (String c s'))).
Qed.

(** A first answer with segments is returned at once. *)
Lemma getTranscript_first_answer videoId language w raw :
  fetchTranscript (upstreamCalls w) videoId language = Segments raw ->
  getTranscript videoId language w
  = Some (Return (sanitizeTranscriptText (Js.join " " (map text raw))),
          called videoId language w).
Proof. intros Hf. now apply retryLoop_Segments. Qed.

(** C5.  When the first upstream answer is a failure that the code
    classifies as "no transcript / disabled" or as "unavailable / private /
    invalid id", [getTranscript] throws [VideoUnavailableError], respectively
    [InvalidVideoError], after exactly one upstream call and without awaiting
    any backoff timer. *)
Theorem getTranscript_terminal_failure_not_retried videoId language w msg :
  fetchTranscript (upstreamCalls w) videoId language = Failure msg ->
  classify msg = NoTranscriptShaped \/ classify msg = InvalidVideoShaped ->
  exists e w',
    getTranscript videoId language w = Some (Throw e, w')
    /\ errClass e = match classify msg with
                    | NoTranscriptShaped => VideoUnavailableError
                    | _ => InvalidVideoError
                    end
    /\ upstreamCalls w' = (videoId, language) :: upstreamCalls w
    /\ timers w' = timers w
    /\ store w' = store w /\ puts w' = puts w.
Proof.
  intros Hf Hk. unfold Youtube.getTranscript.
  rewrite retryLoop_Failure with (msg := msg); [|reflexivity|exact Hf].
  cbv zeta.
  destruct Hk as [-> | ->]; do 2 eexists; repeat split.
Qed.

(** C6.  Every call of [getTranscript] makes at least one and at most three
    upstream calls.  When the three answers are all failures classified as
    network-shaped or rate-limit-shaped, the third failure is terminal:
    [NetworkError] if it is network-shaped, [RateLimitError] if it is
    rate-limit-shaped, with the attempt count and the last message in the
    text. *)
Theorem getTranscript_transient_failures_three_attempts videoId language w :
  (exists c w' n,
      getTranscript videoId language w = Some (c, w')
      /\ upstreamCalls w' = repeat (videoId, language) n ++ upstreamCalls w
      /\ (1 <= n <= 3)%nat)
  /\ (forall m1 m2 m3,
         let h := upstreamCalls w in
         let call := (videoId, language) in
         fetchTranscript h videoId language = Failure m1 ->
         fetchTranscript (call :: h) videoId language = Failure m2 ->
         fetchTranscript (call :: call :: h) videoId language = Failure m3 ->
         classify m1 = NetworkShaped \/ classify m1 = RateLimitShaped ->
         classify m2 = NetworkShaped \/ classify m2 = RateLimitShaped ->
         classify m3 = NetworkShaped \/ classify m3 = RateLimitShaped ->
         exists e w',
           getTranscript videoId language w = Some (Throw e, w')
           /\ upstreamCalls w' = call :: call :: call :: h
           /\ (classify m3 = NetworkShaped ->
               e = mkError NetworkError
                     ("Network error after 3 attempts: " +:+ m3))
           /\ (classify m3 = RateLimitShaped ->
               e = mkError RateLimitError
                     ("Rate limited after 3 attempts: " +:+ m3))).
Proof.
  split.
  - destruct (wp_elim _ _ _ (getTranscript_post videoId language w))
      as (c & w' & Hrun & _ & _ & n & Hcalls & Hle & _).
    exists c, w', (S n). unfold MAX_RETRIES in Hle.
    repeat split; [exact Hrun | exact Hcalls | lia | lia].
  - intros m1 m2 m3 h call H1 H2 H3 K1 K2 K3. subst h call.
    unfold Youtube.getTranscript, MAX_RETRIES.
    rewrite retryLoop_Failure with (msg := m1); [|reflexivity|exact H1].
    cbv zeta.
    destruct K1 as [-> | ->]; unfold MAX_RETRIES; cbn [Nat.leb];
      (rewrite retryLoop_Failure with (msg := m2); [|reflexivity|exact H2]);
      cbv zeta;
      (destruct K2 as [-> | ->]; unfold MAX_RETRIES; cbn [Nat.leb];
       (rewrite retryLoop_Failure with (msg := m3); [|reflexivity|exact H3]);
       cbv zeta;
       (destruct K3 as [K | K]; rewrite K; unfold MAX_RETRIES; cbn [Nat.leb];
        do 2 eexists; repeat split; intros; congruence)).
Qed.

(** C7.  A transcript returned by [getTranscript] is the text of the
    segments of the last upstream answer, joined with single spaces, with
    every run of line feeds collapsed to one and the ends trimmed; and
    sanitizing [a\n\n\nb  \n] gives [a\nb]. *)
Theorem getTranscript_returns_sanitized_join videoId language w t w' :
  getTranscript videoId language w = Some (Return t, w') ->
  (exists raw history,
      upstreamCalls w' = (videoId, language) :: history
      /\ fetchTranscript history videoId language = Segments raw
      /\ t = SpecWords.sanitizeSpec (Js.join " " (map text raw)))
  /\ sanitizeTranscriptText Scenarios.rawExample = Scenarios.cleanExample.
Proof.
  intros Hrun. split; [|reflexivity].
  pose proof (getTranscript_post videoId language w) as Hpost.
  unfold wp in Hpost. rewrite Hrun in Hpost.
  destruct Hpost as (_ & _ & n & Hcalls & _ & raw & Hf & ->).
  exists raw, (repeat (videoId, language) n ++ upstreamCalls w).
  split; [exact Hcalls|]. split; [exact Hf|].
  apply sanitizeTranscriptText_spec.
Qed.

End WithUpstream.

Import Scenarios.

Lemma getTranscript_terminal_failure_not_retried_witness :
  exists e w',
    Youtube.getTranscript noTranscriptThenOk vid "en" emptyWorld
    = Some (Throw e, w')
    /\ errClass e = VideoUnavailableError
    /\ upstreamCalls w' = [(vid, "en")]
    /\ timers w' = []
    /\ store w' = ∅ /\ puts w' = [].
Proof.
  exact (getTranscript_terminal_failure_not_retried noTranscriptThenOk
           vid "en" emptyWorld "No transcript found for this video"
           eq_refl (or_introl eq_refl)).
Defined.

Lemma getTranscript_transient_failures_three_attempts_witness :
  exists e w',
    Youtube.getTranscript throttled vid "en" emptyWorld = Some (Throw e, w')
    /\ upstreamCalls w' = [(vid, "en"); (vid, "en"); (vid, "en")]
    /\ (classify "Too Many Requests" = NetworkShaped ->
        e = mkError NetworkError
              ("Network error after 3 attempts: " +:+ "Too Many Requests"))
    /\ (classify "Too Many Requests" = RateLimitShaped ->
        e = mkError RateLimitError
              ("Rate limited after 3 attempts: " +:+ "Too Many Requests")).
Proof.
  apply (proj2 (getTranscript_transient_failures_three_attempts throttled
                  vid "en" emptyWorld)
               "429" "request timed out" "Too Many Requests");
    first [ reflexivity | left; reflexivity | right; reflexivity ].
Defined.

Lemma getTranscript_returns_sanitized_join_witness :
  (exists raw history,
      upstreamCalls (called vid "en" (slept 1000 (called vid "en" emptyWorld)))
      = (vid, "en") :: history
      /\ resetThenSegments history vid "en" = Segments raw
      /\ "a" +:+ String Js.LF " b"
         = SpecWords.sanitizeSpec (Js.join " " (map text raw)))
  /\ sanitizeTranscriptText rawExample = cleanExample.
Proof.
  apply (getTranscript_returns_sanitized_join resetThenSegments vid "en"
           emptyWorld).
  reflexivity.
Defined.

(** The sanitization example of the specification, on the code and on the
    specification's wording. *)
Example sanitize_example :
  sanitizeTranscriptText rawExample = cleanExample
  /\ SpecWords.sanitizeSpec rawExample = cleanExample
  /\ sanitizeTranscriptText EmptyString = EmptyString.
Proof. repeat split. Qed.

End YoutubeFacts.

(* ===================================================================== *)
(** * Resolution strategy: facts *)
(* ===================================================================== *)

Module TranscriptFacts.

Import Runtime Logic RuntimeFacts Youtube Transcript.

Lemma getCachedTranscript_run env videoId language w :
  Cache.getCachedTranscript env videoId language w
  = Some (Return (cachedValue env w videoId language), w).
Proof.
  unfold Cache.getCachedTranscript, cachedValue.
  destruct (TRANSCRIPT_CACHE env); reflexivity.
Qed.

Lemma when_setCachedTranscript_run env videoId language data isError w :
  when (TRANSCRIPT_CACHE env)
       (Cache.setCachedTranscript env videoId language data isError) w
  = Some (Return tt,
          if TRANSCRIPT_CACHE env
          then written videoId language data
                 (if isError then Cache.ERROR_RESPONSE_TTL_SECONDS
                  else Cache.SUCCESSFUL_TRANSCRIPT_TTL_SECONDS) w
          else w).
Proof.
  unfold when, Cache.setCachedTranscript.
  destruct (TRANSCRIPT_CACHE env); reflexivity.
Qed.

(** Properties of worlds kept by every step of the resolution, given that
    the upstream fetch and the permitted cache writes keep them. *)
Section Invariant.

Variable fetchTranscript :
  list (string * string) -> string -> string -> UpstreamResult.
Variable videoId : string.
Variable env : Env.
Variable I : World -> Prop.
Variable okPut : string -> string -> bool -> Prop.

Hypothesis I_fetch :
  forall language,
    preserves I (fetchTranscriptFromYouTube fetchTranscript videoId language).
Hypothesis I_set :
  forall language data isError,
    okPut language data isError ->
    preserves I
      (when (TRANSCRIPT_CACHE env)
         (Cache.setCachedTranscript env videoId language data isError)).

Lemma getCachedTranscript_preserves language :
  preserves I (Cache.getCachedTranscript env videoId language).
Proof.
  intros w Hw. unfold wp. rewrite getCachedTranscript_run. exact Hw.
Qed.

Lemma tryLanguage_preserves lang :
  (forall t, okPut lang t false) ->
  preserves I (tryLanguage fetchTranscript videoId env lang).
Proof.
  intros Hok. unfold tryLanguage.
  apply preserves_bind; [apply getCachedTranscript_preserves|].
  intros cached. destruct (isCachedTranscript cached);
    [apply preserves_ret|].
  apply preserves_bind; [apply I_fetch|]. intros t.
  apply preserves_bind; [apply I_set, Hok|]. intros _. apply preserves_ret.
Qed.

Lemma autoDetectionLoop_preserves langs :
  (forall lang t, In lang langs -> okPut lang t false) ->
  forall lastError availableLanguages,
    preserves I (autoDetectionLoop fetchTranscript videoId env langs
                   lastError availableLanguages).
Proof.
  induction langs as [|lang rest IH]; intros Hok lastError avail;
    cbn [autoDetectionLoop]; [apply preserves_ret|].
  apply preserves_bind.
  - apply preserves_attempt, tryLanguage_preserves.
    intros t. apply Hok. now left.
  - intros [result|error]; [apply preserves_ret|].
    destruct (isLanguageRelatedError error); cbn [negb];
      [|apply preserves_ret].
    apply IH. intros l t Hin. apply Hok. now right.
Qed.

Lemma getTranscriptWithAutoDetection_preserves :
  (forall lang t, In lang languagesToTry -> okPut lang t false) ->
  preserves I (getTranscriptWithAutoDetection fetchTranscript videoId env).
Proof.
  intros Hok. unfold getTranscriptWithAutoDetection.
  apply preserves_bind; [now apply autoDetectionLoop_preserves|].
  intros [result|[lastError avail]];
    [apply preserves_ret | apply preserves_throw].
Qed.

Lemma tryRequested_preserves requestedLanguage :
  (forall t, okPut requestedLanguage t false) ->
  preserves I (tryRequested fetchTranscript videoId env requestedLanguage).
Proof.
  intros Hok. unfold tryRequested. cbv zeta.
  assert (Hfetch : preserves I
            (let* transcript :=
               fetchTranscriptFromYouTube fetchTranscript videoId
                 requestedLanguage in
             run* when (TRANSCRIPT_CACHE env)
                    (Cache.setCachedTranscript env videoId requestedLanguage
                       transcript false) in
             ret transcript)).
  { apply preserves_bind; [apply I_fetch|]. intros t.
    apply preserves_bind; [apply I_set, Hok|]. intros _. apply preserves_ret. }
  apply preserves_bind; [apply getCachedTranscript_preserves|].
  intros [d|]; [|exact Hfetch].
  destruct (Js.truthy d); [|exact Hfetch].
  destruct (Cache.isStoredError d);
    [apply preserves_throw | apply preserves_ret].
Qed.

Lemma tryEnglish_preserves requestedLanguage :
  (forall t, okPut "en" t false) ->
  preserves I (tryEnglish fetchTranscript videoId env requestedLanguage).
Proof.
  intros Hok. unfold tryEnglish.
  apply preserves_bind; [apply getCachedTranscript_preserves|].
  intros cached. destruct (isCachedTranscript cached);
    [apply preserves_ret|].
  apply preserves_bind; [apply I_fetch|]. intros t.
  apply preserves_bind; [apply I_set, Hok|]. intros _. apply preserves_ret.
Qed.

Lemma catchRequested_preserves requestedLanguage error :
  (forall t, okPut "en" t false) ->
  (forall msg, okPut requestedLanguage ("Error: " +:+ msg) true) ->
  preserves I
    (catchRequested fetchTranscript videoId env requestedLanguage error).
Proof.
  intros Hen Herr. unfold catchRequested.
  destruct (isLanguageRelatedError error
            && negb (String.eqb requestedLanguage "en")).
  - apply preserves_bind;
      [apply preserves_attempt, tryEnglish_preserves, Hen|].
    intros [result|englishError]; [apply preserves_ret|].
    apply preserves_bind; [apply I_set, Herr|]. intros _.
    apply preserves_throw.
  - apply preserves_bind; [apply I_set, Herr|]. intros _.
    apply preserves_throw.
Qed.

Lemma getTranscriptWithFallback_preserves requestedLanguage :
  (forall t, okPut requestedLanguage t false) ->
  (forall t, okPut "en" t false) ->
  (forall msg, okPut requestedLanguage ("Error: " +:+ msg) true) ->
  preserves I
    (getTranscriptWithFallback fetchTranscript videoId env requestedLanguage).
Proof.
  intros Hreq Hen Herr. unfold getTranscriptWithFallback.
  apply preserves_bind;
    [apply preserves_attempt, tryRequested_preserves, Hreq|].
  intros [result|error];
    [apply preserves_ret | now apply catchRequested_preserves].
Qed.

End Invariant.

Lemma key_inj videoId lang lang' :
  Cache.getTranscriptCacheKey videoId lang
  = Cache.getTranscriptCacheKey videoId lang' -> lang = lang'.
Proof.
  unfold Cache.getTranscriptCacheKey. intros H.
  now do 3 apply JsFacts.append_inj_l in H.
Qed.

Lemma candidates_not_auto lang : In lang languagesToTry -> lang <> "auto".
Proof.
  unfold languagesToTry. cbn [In]. intros H ->.
  repeat (destruct H as [H|H]; [discriminate H|]). exact H.
Qed.

(** Every put of a request goes to a key of a concrete language. *)
Lemma resolutionPut_concrete videoId language p :
  resolutionPut videoId language p ->
  exists lang,
    putKey p = Cache.getTranscriptCacheKey videoId lang
    /\ lang <> "auto"
    /\ putKey p <> Cache.getTranscriptCacheKey videoId "auto"
    /\ (In lang languagesToTry \/ lang = language \/ lang = "en").
Proof.
  assert (Hkey : forall lang, lang <> "auto" ->
            Cache.getTranscriptCacheKey videoId lang
            <> Cache.getTranscriptCacheKey videoId "auto").
  { intros lang Hne Heq. apply Hne. exact (key_inj _ _ _ Heq). }
  intros [lang t Hauto Hin | t Hne | t Hne | msg Hne]; cbn [putKey].
  - exists lang. pose proof (candidates_not_auto _ Hin). auto 6.
  - exists language. auto 6.
  - exists "en". assert ("en" <> "auto") by discriminate. auto 6.
  - exists language. auto 6.
Qed.

(** A put with the error TTL carries the reserved prefix. *)
Lemma resolutionPut_error_tagged videoId language p :
  resolutionPut videoId language p ->
  putTtl p = Cache.ERROR_RESPONSE_TTL_SECONDS ->
  Cache.isStoredError (putValue p) = true.
Proof.
  intros [lang t _ _ | t _ | t _ | msg _]; cbn [putTtl putValue];
    try discriminate.
  intros _. exact (JsFacts.startsWith_append "Error:" (" " +:+ msg)).
Qed.

Section WithUpstream.

Variable fetchTranscript :
  list (string * string) -> string -> string -> UpstreamResult.

Lemma fetch_post videoId language w :
  wp (fetchTranscriptFromYouTube fetchTranscript videoId language)
     (retryPost fetchTranscript videoId language 0 w) w.
Proof. apply YoutubeFacts.getTranscript_post. Qed.

Lemma fetch_preserves_putsExtend P w0 videoId language :
  preserves (putsExtend P w0)
            (fetchTranscriptFromYouTube fetchTranscript videoId language).
Proof.
  intros w (new & Hp & HF). eapply wp_mono; [|apply fetch_post].
  intros c w' (_ & Hp' & _). exists new. now rewrite Hp'.
Qed.

Lemma fetch_preserves_callsAbove (base : list (string * string)) videoId
      language :
  preserves (callsAbove base)
            (fetchTranscriptFromYouTube fetchTranscript videoId language).
Proof.
  intros w (more & Hc). eapply wp_mono; [|apply fetch_post].
  intros c w' (_ & _ & n & Hc' & _).
  exists (repeat (videoId, language) (S n) ++ more).
  rewrite Hc', Hc. now rewrite app_assoc.
Qed.

Lemma set_preserves_putsExtend (P : KVPut -> Prop) w0 env videoId language
      data (isError : bool) :
  P (mkPut (Cache.getTranscriptCacheKey videoId language) data
           (if isError then Cache.ERROR_RESPONSE_TTL_SECONDS
            else Cache.SUCCESSFUL_TRANSCRIPT_TTL_SECONDS)) ->
  preserves (putsExtend P w0)
            (when (TRANSCRIPT_CACHE env)
               (Cache.setCachedTranscript env videoId language data isError)).
Proof.
  intros HP w (new & Hp & HF). unfold wp.
  rewrite when_setCachedTranscript_run.
  destruct (TRANSCRIPT_CACHE env); [|now exists new].
  eexists (_ :: new). cbn. rewrite Hp. split; [reflexivity|].
  now constructor.
Qed.

Lemma set_preserves_callsAbove (base : list (string * string)) env videoId
      language data isError :
  preserves (callsAbove base)
            (when (TRANSCRIPT_CACHE env)
               (Cache.setCachedTranscript env videoId language data isError)).
Proof.
  intros w Hw. unfold wp. rewrite when_setCachedTranscript_run.
  now destruct (TRANSCRIPT_CACHE env).
Qed.

(** The puts of auto-detection. *)
Lemma getTranscriptWithAutoDetection_puts videoId env w0 :
  preserves (putsExtend (resolutionPut videoId "auto") w0)
            (getTranscriptWithAutoDetection fetchTranscript videoId env).
Proof.
  apply getTranscriptWithAutoDetection_preserves
    with (okPut := fun l d (e : bool) =>
                     e = false /\ In l languagesToTry).
  - intros l. apply fetch_preserves_putsExtend.
  - intros l d e [-> Hin]. apply set_preserves_putsExtend.
    now constructor.
  - auto.
Qed.

(** The puts of the exact-language mode. *)
Lemma getTranscriptWithFallback_puts videoId env language w0 :
  language <> "auto" ->
  preserves (putsExtend (resolutionPut videoId language) w0)
            (getTranscriptWithFallback fetchTranscript videoId env language).
Proof.
  intros Hne.
  apply getTranscriptWithFallback_preserves
    with (okPut := fun l d (e : bool) =>
                     resolutionPut videoId language
                       (mkPut (Cache.getTranscriptCacheKey videoId l) d
                          (if e then Cache.ERROR_RESPONSE_TTL_SECONDS
                           else Cache.SUCCESSFUL_TRANSCRIPT_TTL_SECONDS))).
  - intros l. apply fetch_preserves_putsExtend.
  - intros l d e Hok. now apply set_preserves_putsExtend.
  - intros t. now constructor.
  - intros t. now constructor.
  - intros msg. now constructor.
Qed.

Lemma putsExtend_refl P w : putsExtend P w w.
Proof. now exists []. Qed.

Section WithParser.

Variable Url : string -> Completion UrlNormalize.ParsedUrl.

(** The puts of a whole request, whatever its mode and outcome. *)
Lemma getTranscript_puts url env language w :
  wp (Transcript.getTranscript Url fetchTranscript url env language)
     (fun _ w' =>
        exists new,
          puts w' = new ++ puts w
          /\ Forall (fun p =>
                       exists videoId,
                         UrlNormalize.extractVideoId Url
                           (UrlNormalize.normalizeYouTubeUrl Url url)
                         = Some videoId
                         /\ resolutionPut videoId language p) new) w.
Proof.
  assert (Hnone : exists new : list KVPut,
             puts w = new ++ puts w
             /\ Forall (fun p =>
                          exists videoId,
                            UrlNormalize.extractVideoId Url
                              (UrlNormalize.normalizeYouTubeUrl Url url)
                            = Some videoId
                            /\ resolutionPut videoId language p) new)
    by now exists [].
  unfold Transcript.getTranscript.
  destruct (UrlNormalize.isValidYouTubeUrl Url url) as [[|]|e];
    [|exact Hnone|exact Hnone].
  destruct (UrlNormalize.extractVideoId Url
              (UrlNormalize.normalizeYouTubeUrl Url url)) as [videoId|];
    [|exact Hnone].
  destruct (Js.truthy videoId); cbn [negb]; [|exact Hnone].
  assert (Hweaken : forall w',
             putsExtend (resolutionPut videoId language) w w' ->
             exists new,
               puts w' = new ++ puts w
               /\ Forall (fun p =>
                            exists videoId0,
                              Some videoId = Some videoId0
                              /\ resolutionPut videoId0 language p) new).
  { intros w' (new & Hp & HF). exists new. split; [exact Hp|].
    eapply Forall_impl; [exact HF|]. intros p Hp'. now exists videoId. }
  destruct (String.eqb_spec language "auto") as [Hauto|Hauto].
  - rewrite Hauto in Hweaken |- *.
    eapply wp_mono;
      [|apply getTranscriptWithAutoDetection_puts, putsExtend_refl].
    intros c w'. apply Hweaken.
  - eapply wp_mono;
      [|apply getTranscriptWithFallback_puts;
        [exact Hauto | apply putsExtend_refl]].
    intros c w'. apply Hweaken.
Qed.

(** C9.  Every request completes, and each KV put it makes goes to the key
    of the request's video id and of a language that is not [auto]: a
    candidate of the auto-detection list, the requested language, or [en].
    No put goes to the key of [(videoId, auto)]. *)
Theorem getTranscript_never_caches_under_auto url env language w :
  exists c w' new,
    Transcript.getTranscript Url fetchTranscript url env language w
    = Some (c, w')
    /\ puts w' = new ++ puts w
    /\ Forall (fun p =>
                 exists videoId lang,
                   UrlNormalize.extractVideoId Url
                     (UrlNormalize.normalizeYouTubeUrl Url url) = Some videoId
                   /\ putKey p = Cache.getTranscriptCacheKey videoId lang
                   /\ lang <> "auto"
                   /\ putKey p <> Cache.getTranscriptCacheKey videoId "auto"
                   /\ (In lang languagesToTry \/ lang = language
                       \/ lang = "en")) new.
Proof.
  destruct (wp_elim _ _ _ (getTranscript_puts url env language w))
    as (c & w' & Hrun & new & Hp & HF).
  exists c, w', new. split; [exact Hrun|]. split; [exact Hp|].
  eapply Forall_impl; [exact HF|].
  intros p (videoId & Hid & Hput).
  destruct (resolutionPut_concrete _ _ _ Hput) as (lang & H1 & H2 & H3 & H4).
  now exists videoId, lang.
Qed.

(** C8, amended.  With the cache bound: (1) a value written with the error
    flag in the form the resolution gives it, [Error: ] followed by a
    message, is read back unchanged, is recognised as a stored error by the
    readers' test, is not a cached transcript, and makes the exact-language
    reader throw it instead of returning it; (2) a value written as a success
    transcript that does not begin with [Error:] is read back unchanged, is
    not taken for a stored error and, unless empty, is returned as the
    transcript; (3) every put a request makes with the error TTL begins with
    [Error:]. *)
Theorem cache_tagging_round_trip videoId language w :
  (forall msg,
      let d := "Error: " +:+ msg in
      let w' := written videoId language d
                  Cache.ERROR_RESPONSE_TTL_SECONDS w in
      Cache.setCachedTranscript (mkEnv true) videoId language d true w
      = Some (Return tt, w')
      /\ Cache.getCachedTranscript (mkEnv true) videoId language w'
         = Some (Return (Some d), w')
      /\ Cache.isStoredError d = true
      /\ isCachedTranscript (Some d) = false
      /\ tryRequested fetchTranscript videoId (mkEnv true) language w'
         = Some (Throw (mkError PlainError d), w'))
  /\ (forall t,
         Cache.isStoredError t = false ->
         let w' := written videoId language t
                     Cache.SUCCESSFUL_TRANSCRIPT_TTL_SECONDS w in
         Cache.setCachedTranscript (mkEnv true) videoId language t false w
         = Some (Return tt, w')
         /\ Cache.getCachedTranscript (mkEnv true) videoId language w'
            = Some (Return (Some t), w')
         /\ (Js.truthy t = true ->
             isCachedTranscript (Some t) = true
             /\ tryRequested fetchTranscript videoId (mkEnv true) language w'
                = Some (Return t, w')))
  /\ (forall url env,
         exists c w' new,
           Transcript.getTranscript Url fetchTranscript url env language w
           = Some (c, w')
           /\ puts w' = new ++ puts w
           /\ Forall (fun p =>
                        putTtl p = Cache.ERROR_RESPONSE_TTL_SECONDS ->
                        Cache.isStoredError (putValue p) = true) new).
Proof.
  assert (Hread : forall d ttl,
             Cache.getCachedTranscript (mkEnv true) videoId language
               (written videoId language d ttl w)
             = Some (Return (Some d), written videoId language d ttl w)).
  { intros d ttl. rewrite getCachedTranscript_run.
    unfold cachedValue, written. cbn [TRANSCRIPT_CACHE store].
    now rewrite lookup_insert_eq. }
  assert (Htag : forall msg, Cache.isStoredError ("Error: " +:+ msg) = true).
  { intros msg. exact (JsFacts.startsWith_append "Error:" (" " +:+ msg)). }
  split; [|split].
  - intros msg d w'. split; [reflexivity|]. split; [apply Hread|].
    split; [apply Htag|]. split.
    + unfold isCachedTranscript. subst d. rewrite Htag.
      apply andb_false_r.
    + unfold tryRequested. cbv zeta. unfold bind at 1. subst w'.
      rewrite Hread. subst d. rewrite Htag. reflexivity.
  - intros t Hno w'. split; [reflexivity|]. split; [apply Hread|].
    intros Htruthy. split.
    + unfold isCachedTranscript. now rewrite Htruthy, Hno.
    + unfold tryRequested. cbv zeta. unfold bind at 1. subst w'.
      rewrite Hread. rewrite Htruthy, Hno. reflexivity.
  - intros url env.
    destruct (wp_elim _ _ _ (getTranscript_puts url env language w))
      as (c & w' & Hrun & new & Hp & HF).
    exists c, w', new. split; [exact Hrun|]. split; [exact Hp|].
    eapply Forall_impl; [exact HF|].
    intros p (v & _ & Hput). now apply resolutionPut_error_tagged with v language.
Qed.

End WithParser.

(** The loop body on a cache hit: the cached text as stored, no note. *)
Lemma tryLanguage_cache_hit videoId env lang w t :
  cachedValue env w videoId lang = Some t ->
  isCachedTranscript (Some t) = true ->
  tryLanguage fetchTranscript videoId env lang w = Some (Return t, w).
Proof.
  intros Hc Ht. unfold tryLanguage. unfold bind at 1.
  rewrite getCachedTranscript_run, Hc, Ht. reflexivity.
Qed.

(** The loop on a failure that is not language-related: it is left at once,
    with the failures collected so far and no further candidate tried. *)
Lemma autoDetectionLoop_break videoId env lang rest lastError avail w e w' :
  tryLanguage fetchTranscript videoId env lang w = Some (Throw e, w') ->
  isLanguageRelatedError e = false ->
  autoDetectionLoop fetchTranscript videoId env (lang :: rest) lastError avail w
  = Some (Return (inr (Some e, avail)), w').
Proof.
  intros Hrun Hlang. cbn [autoDetectionLoop]. unfold bind at 1.
  unfold attempt at 1. rewrite Hrun, Hlang. reflexivity.
Qed.

(** What a completed fetch leaves behind. *)
Lemma fetch_frame videoId language w c w' :
  fetchTranscriptFromYouTube fetchTranscript videoId language w
  = Some (c, w') ->
  store w' = store w /\ puts w' = puts w
  /\ exists more,
       upstreamCalls w' = more ++ (videoId, language) :: upstreamCalls w.
Proof.
  intros Hrun. pose proof (fetch_post videoId language w) as Hpost.
  unfold wp in Hpost. rewrite Hrun in Hpost.
  destruct Hpost as (Hs & Hp & n & Hc & _).
  split; [exact Hs|]. split; [exact Hp|].
  exists (repeat (videoId, language) n).
  now rewrite YoutubeFacts.repeat_snoc_app.
Qed.

(** On a cache miss the outer [try] block is the fetch-and-cache part. *)
Lemma tryRequested_miss videoId env requestedLanguage w :
  isMiss (cachedValue env w videoId requestedLanguage) = true ->
  tryRequested fetchTranscript videoId env requestedLanguage w
  = (let* transcript :=
       fetchTranscriptFromYouTube fetchTranscript videoId requestedLanguage in
     run* when (TRANSCRIPT_CACHE env)
            (Cache.setCachedTranscript env videoId requestedLanguage
               transcript false) in
     ret transcript) w.
Proof.
  intros Hmiss. unfold tryRequested. cbv zeta. unfold bind at 1.
  rewrite getCachedTranscript_run.
  destruct (cachedValue env w videoId requestedLanguage) as [d|];
    [|reflexivity].
  cbn [isMiss] in Hmiss. destruct (Js.truthy d); [discriminate|reflexivity].
Qed.

(** On a cache miss a request in exact-language mode starts with an
    upstream call for the requested language. *)
Lemma getTranscriptWithFallback_miss_fetches videoId env requestedLanguage w :
  isMiss (cachedValue env w videoId requestedLanguage) = true ->
  wp (getTranscriptWithFallback fetchTranscript videoId env requestedLanguage)
     (fun _ w' =>
        callsAbove ((videoId, requestedLanguage) :: upstreamCalls w) w') w.
Proof.
  intros Hmiss. unfold getTranscriptWithFallback.
  set (base := (videoId, requestedLanguage) :: upstreamCalls w).
  apply wp_bind, wp_attempt.
  assert (Htry : wp (tryRequested fetchTranscript videoId env
                       requestedLanguage)
                    (fun _ w' => callsAbove base w') w).
  { unfold wp at 1. rewrite tryRequested_miss by exact Hmiss.
    change (wp (let* transcript :=
                  fetchTranscriptFromYouTube fetchTranscript videoId
                    requestedLanguage in
                run* when (TRANSCRIPT_CACHE env)
                       (Cache.setCachedTranscript env videoId
                          requestedLanguage transcript false) in
                ret transcript)
               (fun _ w' => callsAbove base w') w).
    apply wp_bind. eapply wp_mono; [|apply fetch_post].
    intros c w' (_ & _ & n & Hc & _).
    assert (Hbase : callsAbove base w').
    { exists (repeat (videoId, requestedLanguage) n). rewrite Hc.
      unfold base. now rewrite YoutubeFacts.repeat_snoc_app. }
    destruct c as [t|e]; [|exact Hbase].
    apply wp_bind.
    eapply wp_mono; [|exact (set_preserves_callsAbove base env videoId
                               requestedLanguage t false w' Hbase)].
    intros [[]|e] w'' Hw''; exact Hw''. }
  eapply wp_mono; [|exact Htry].
  intros [result|error] w' Hw'; [exact Hw'|].
  apply catchRequested_preserves
    with (I := callsAbove base) (okPut := fun _ _ _ => True); auto.
  - intros l. apply fetch_preserves_callsAbove.
  - intros l d e _. apply set_preserves_callsAbove.
Qed.

(** A failed outer [try] block leaves the KV namespace as it was. *)
Lemma tryRequested_throw_frame videoId env requestedLanguage w e w1 :
  tryRequested fetchTranscript videoId env requestedLanguage w
  = Some (Throw e, w1) ->
  store w1 = store w /\ puts w1 = puts w.
Proof.
  unfold tryRequested. cbv zeta. unfold bind at 1.
  rewrite getCachedTranscript_run.
  assert (Hfetch :
            (let* transcript :=
               fetchTranscriptFromYouTube fetchTranscript videoId
                 requestedLanguage in
             run* when (TRANSCRIPT_CACHE env)
                    (Cache.setCachedTranscript env videoId requestedLanguage
                       transcript false) in
             ret transcript) w = Some (Throw e, w1) ->
            store w1 = store w /\ puts w1 = puts w).
  { unfold bind at 1.
    destruct (fetchTranscriptFromYouTube fetchTranscript videoId
                requestedLanguage w) as [[[t|e'] w']|] eqn:Hf;
      [| |discriminate].
    - unfold bind at 1. rewrite when_setCachedTranscript_run. discriminate.
    - intros H. injection H as _ <-.
      destruct (fetch_frame _ _ _ _ _ Hf) as (Hs & Hp & _). now split. }
  destruct (cachedValue env w videoId requestedLanguage) as [d|];
    [|exact Hfetch].
  destruct (Js.truthy d); [|exact Hfetch].
  destruct (Cache.isStoredError d); [|discriminate].
  intros H. injection H as _ <-. now split.
Qed.

(** The upstream calls of the English fetch, and of a cache write. *)
Lemma fetch_english_calls_english videoId w0 :
  preserves (callsExtend (fun call => call = (videoId, "en")) w0)
            (fetchTranscriptFromYouTube fetchTranscript videoId "en").
Proof.
  intros w (new & Hc & HF). eapply wp_mono; [|apply fetch_post].
  intros c w' (_ & _ & n & Hc' & _).
  exists (repeat (videoId, "en") (S n) ++ new). split.
  - rewrite Hc', Hc. now rewrite app_assoc.
  - apply Forall_app. split; [|exact HF].
    apply Forall_forall. intros x Hx. apply list_elem_of_In in Hx.
    exact (repeat_spec _ _ _ Hx).
Qed.

Lemma set_keeps_calls (P : string * string -> Prop) w0 env videoId language
      data isError :
  preserves (callsExtend P w0)
            (when (TRANSCRIPT_CACHE env)
               (Cache.setCachedTranscript env videoId language data isError)).
Proof.
  intros w Hw. unfold wp. rewrite when_setCachedTranscript_run.
  now destruct (TRANSCRIPT_CACHE env).
Qed.

(** The outer [catch] block calls upstream for English only. *)
Lemma catchRequested_calls_english videoId env requestedLanguage error w0 :
  preserves (callsExtend (fun call => call = (videoId, "en")) w0)
            (catchRequested fetchTranscript videoId env requestedLanguage
               error).
Proof.
  unfold catchRequested.
  destruct (isLanguageRelatedError error
            && negb (String.eqb requestedLanguage "en")).
  - apply preserves_bind.
    + apply preserves_attempt. unfold tryEnglish.
      apply preserves_bind; [apply getCachedTranscript_preserves|].
      intros cached. destruct (isCachedTranscript cached);
        [apply preserves_ret|].
      apply preserves_bind; [apply fetch_english_calls_english|]. intros t.
      apply preserves_bind; [apply set_keeps_calls|]. intros _.
      apply preserves_ret.
    + intros [result|englishError]; [apply preserves_ret|].
      apply preserves_bind; [apply set_keeps_calls|]. intros _.
      apply preserves_throw.
  - apply preserves_bind; [apply set_keeps_calls|]. intros _.
    apply preserves_throw.
Qed.

(** With an entry under the requested language (a transcript or a stored
    error) a request in exact-language mode calls upstream for English
    only. *)
Lemma getTranscriptWithFallback_entry_calls_english videoId env
      requestedLanguage w :
  isMiss (cachedValue env w videoId requestedLanguage) = false ->
  wp (getTranscriptWithFallback fetchTranscript videoId env requestedLanguage)
     (fun _ w' => callsExtend (fun call => call = (videoId, "en")) w w') w.
Proof.
  intros Hentry.
  assert (Hrefl : callsExtend (fun call => call = (videoId, "en")) w w).
  { exists []. split; [reflexivity|constructor]. }
  assert (Hrun :
            exists c,
              tryRequested fetchTranscript videoId env requestedLanguage w
              = Some (c, w)).
  { unfold tryRequested. cbv zeta. unfold bind at 1.
    rewrite getCachedTranscript_run.
    destruct (cachedValue env w videoId requestedLanguage) as [d|];
      [|discriminate].
    cbn [isMiss] in Hentry. apply negb_false_iff in Hentry. rewrite Hentry.
    destruct (Cache.isStoredError d); eexists; reflexivity. }
  destruct Hrun as (c & Hrun).
  unfold getTranscriptWithFallback. apply wp_bind, wp_attempt.
  eapply wp_intro; [exact Hrun|].
  destruct c as [result|error]; [exact Hrefl|].
  now apply catchRequested_calls_english.
Qed.

(** C10, amended.  In exact-language mode, when the requested language
    fails with a language-related error (from upstream, or from a stored
    error), English is not cached as a transcript and the English fallback
    fetch succeeds, the annotated English transcript is returned and the
    transcript is cached only under the key for [en]: with the cache bound
    the store afterwards is the store before with the English transcript
    under [(videoId, en)], that put is the only one, and what the cache
    holds under the requested language is what it held before.  A later
    request for the same pair repeats the upstream fetch for the requested
    language exactly when it finds no entry under the requested language
    (an empty value counts as none): without an entry its first upstream
    call is for the requested language; with one (a stored error, say) it
    calls upstream for English at most. *)
Theorem fallback_success_caches_only_english
        videoId env requestedLanguage w e w1 t w2 :
  requestedLanguage <> "en" ->
  tryRequested fetchTranscript videoId env requestedLanguage w
  = Some (Throw e, w1) ->
  isLanguageRelatedError e = true ->
  isCachedTranscript (cachedValue env w1 videoId "en") = false ->
  fetchTranscriptFromYouTube fetchTranscript videoId "en" w1
  = Some (Return t, w2) ->
  exists w3,
    getTranscriptWithFallback fetchTranscript videoId env requestedLanguage w
    = Some (Return (fallbackNote requestedLanguage t), w3)
    /\ store w3
       = (if TRANSCRIPT_CACHE env
          then <[Cache.getTranscriptCacheKey videoId "en"
                 := (t, Cache.SUCCESSFUL_TRANSCRIPT_TTL_SECONDS)]> (store w)
          else store w)
    /\ puts w3
       = (if TRANSCRIPT_CACHE env
          then [mkPut (Cache.getTranscriptCacheKey videoId "en") t
                      Cache.SUCCESSFUL_TRANSCRIPT_TTL_SECONDS]
          else []) ++ puts w
    /\ upstreamCalls w3 = upstreamCalls w2
    /\ cachedValue env w3 videoId requestedLanguage
       = cachedValue env w videoId requestedLanguage
    /\ (forall later,
          isMiss (cachedValue env later videoId requestedLanguage) = true ->
          exists c w4 more,
            getTranscriptWithFallback fetchTranscript videoId env
              requestedLanguage later = Some (c, w4)
            /\ upstreamCalls w4
               = more ++ (videoId, requestedLanguage) :: upstreamCalls later)
    /\ (forall later,
          isMiss (cachedValue env later videoId requestedLanguage) = false ->
          exists c w4 more,
            getTranscriptWithFallback fetchTranscript videoId env
              requestedLanguage later = Some (c, w4)
            /\ upstreamCalls w4 = more ++ upstreamCalls later
            /\ Forall (fun call => call = (videoId, "en")) more
            /\ ~ In (videoId, requestedLanguage) more).
Proof.
  intros Hne Hreq Hlang Hen Henglish.
  destruct (tryRequested_throw_frame _ _ _ _ _ _ Hreq) as (Hs1 & Hp1).
  destruct (fetch_frame _ _ _ _ _ Henglish) as (Hs2 & Hp2 & _).
  set (w3 := if TRANSCRIPT_CACHE env
             then written videoId "en" t
                    Cache.SUCCESSFUL_TRANSCRIPT_TTL_SECONDS w2
             else w2).
  assert (Hstore3 :
            store w3
            = (if TRANSCRIPT_CACHE env
               then <[Cache.getTranscriptCacheKey videoId "en"
                      := (t, Cache.SUCCESSFUL_TRANSCRIPT_TTL_SECONDS)]>
                      (store w)
               else store w)).
  { unfold w3. destruct (TRANSCRIPT_CACHE env); cbn [written store];
      now rewrite Hs2, Hs1. }
  exists w3.
  split; [|split; [exact Hstore3|split; [|split; [|split; [|split]]]]].
  - unfold getTranscriptWithFallback. unfold bind at 1. unfold attempt at 1.
    rewrite Hreq.
    unfold catchRequested. rewrite Hlang.
    destruct (String.eqb_spec requestedLanguage "en") as [Heq|_];
      [contradiction|]. cbn [negb andb].
    unfold bind at 1. unfold attempt at 1. unfold tryEnglish.
    unfold bind at 1. rewrite getCachedTranscript_run. rewrite Hen.
    unfold bind at 1. rewrite Henglish.
    unfold bind at 1. rewrite when_setCachedTranscript_run.
    reflexivity.
  - unfold w3. destruct (TRANSCRIPT_CACHE env); cbn [written puts app];
      now rewrite Hp2, Hp1.
  - unfold w3. now destruct (TRANSCRIPT_CACHE env).
  - unfold cachedValue. rewrite Hstore3.
    destruct (TRANSCRIPT_CACHE env); [|reflexivity].
    rewrite lookup_insert_ne; [reflexivity|].
    intros Hk. apply Hne. symmetry. exact (key_inj _ _ _ Hk).
  - intros later Hlater.
    destruct (wp_elim _ _ _
                (getTranscriptWithFallback_miss_fetches videoId env
                   requestedLanguage later Hlater))
      as (c & w4 & Hrun & more & Hc).
    now exists c, w4, more.
  - intros later Hlater.
    destruct (wp_elim _ _ _
                (getTranscriptWithFallback_entry_calls_english videoId env
                   requestedLanguage later Hlater))
      as (c & w4 & Hrun & more & Hc & HF).
    exists c, w4, more. split; [exact Hrun|]. split; [exact Hc|].
    split; [exact HF|].
    intros Hin. apply list_elem_of_In in Hin.
    rewrite Forall_forall in HF. specialize (HF _ Hin).
    apply Hne. now injection HF.
Qed.

End WithUpstream.

Import Scenarios.

Lemma fallback_success_caches_only_english_witness :
  exists w3,
    getTranscriptWithFallback onlyEnglish vid bound "tr" emptyWorld
    = Some (Return (fallbackNote "tr" "hello world"), w3)
    /\ store w3
       = <[Cache.getTranscriptCacheKey vid "en"
           := ("hello world", Cache.SUCCESSFUL_TRANSCRIPT_TTL_SECONDS)]>
           (store emptyWorld)
    /\ puts w3
       = [mkPut (Cache.getTranscriptCacheKey vid "en") "hello world"
                Cache.SUCCESSFUL_TRANSCRIPT_TTL_SECONDS] ++ puts emptyWorld
    /\ upstreamCalls w3 = [(vid, "en"); (vid, "tr")]
    /\ cachedValue bound w3 vid "tr" = None
    /\ (forall later,
          isMiss (cachedValue bound later vid "tr") = true ->
          exists c w4 more,
            getTranscriptWithFallback onlyEnglish vid bound "tr" later
            = Some (c, w4)
            /\ upstreamCalls w4 = more ++ (vid, "tr") :: upstreamCalls later)
    /\ (forall later,
          isMiss (cachedValue bound later vid "tr") = false ->
          exists c w4 more,
            getTranscriptWithFallback onlyEnglish vid bound "tr" later
            = Some (c, w4)
            /\ upstreamCalls w4 = more ++ upstreamCalls later
            /\ Forall (fun call => call = (vid, "en")) more
            /\ ~ In (vid, "tr") more).
Proof.
  apply (fallback_success_caches_only_english onlyEnglish vid bound "tr"
           emptyWorld
           (mkError VideoUnavailableError
              ("No transcript found for " +:+ vid
               +:+ " (lang: tr). Transcripts may be disabled."))
           (called vid "tr" emptyWorld)
           "hello world"
           (called vid "en" (called vid "tr" emptyWorld)));
    first [ discriminate | reflexivity ].
Defined.

(** C10, counterexample.  A later request need not repeat the upstream
    fetch for the requested language.  (1) The requested language fails from
    the cache: with the stored error "No transcript available" under
    [(vid, tr)], the request for [tr] fails language-related, the English
    fallback is fetched, succeeds and is cached under [en] only; the next
    request for [tr] is answered from the two cache entries without any
    upstream call.  (2) From an empty cache: the first request for [tr]
    fails upstream, falls back to English and caches [en] only; the second
    fetches [tr] again, is throttled and stores that error under [tr]; the
    third is answered from the stored error without any upstream call. *)
Lemma later_request_skips_requested_language :
  (exists e w1 w2,
      tryRequested onlyEnglish vid bound "tr"
        (withStoredError "Error: No transcript available for this video.")
      = Some (Throw e,
              withStoredError "Error: No transcript available for this video.")
      /\ isLanguageRelatedError e = true
      /\ getTranscriptWithFallback onlyEnglish vid bound "tr"
           (withStoredError "Error: No transcript available for this video.")
         = Some (Return (fallbackNote "tr" "hello world"), w1)
      /\ puts w1 = [mkPut (Cache.getTranscriptCacheKey vid "en") "hello world"
                          Cache.SUCCESSFUL_TRANSCRIPT_TTL_SECONDS]
      /\ upstreamCalls w1 = [(vid, "en")]
      /\ getTranscriptWithFallback onlyEnglish vid bound "tr" w1
         = Some (Return (fallbackNote "tr" "hello world"), w2)
      /\ upstreamCalls w2 = upstreamCalls w1)
  /\ (exists e w1 e2 w2 e3 w3,
         tryRequested turkishThenThrottled vid bound "tr" emptyWorld
         = Some (Throw e, called vid "tr" emptyWorld)
         /\ isLanguageRelatedError e = true
         /\ getTranscriptWithFallback turkishThenThrottled vid bound "tr"
              emptyWorld
            = Some (Return (fallbackNote "tr" "hello world"), w1)
         /\ puts w1
            = [mkPut (Cache.getTranscriptCacheKey vid "en") "hello world"
                     Cache.SUCCESSFUL_TRANSCRIPT_TTL_SECONDS]
         /\ upstreamCalls w1 = [(vid, "en"); (vid, "tr")]
         /\ getTranscriptWithFallback turkishThenThrottled vid bound "tr" w1
            = Some (Throw e2, w2)
         /\ cachedValue bound w2 vid "tr"
            = Some "Error: Service temporarily busy, try again in a few minutes."
         /\ getTranscriptWithFallback turkishThenThrottled vid bound "tr" w2
            = Some (Throw e3, w3)
         /\ upstreamCalls w3 = upstreamCalls w2).
Proof.
  split.
  - do 3 eexists. repeat (split; [vm_compute; reflexivity|]).
    vm_compute; reflexivity.
  - do 6 eexists. repeat (split; [vm_compute; reflexivity|]).
    vm_compute; reflexivity.
Qed.

(** C1, the code at the failing input.  The first auto-detect request
    fetches English, caches it and returns it with the note; the same request
    repeated hits the cache and returns the bare transcript, without the
    note. *)
Lemma autoDetection_cache_hit_not_annotated :
  exists w1,
    getTranscriptWithAutoDetection onlyEnglish vid bound emptyWorld
    = Some (Return (autoDetectedNote "en" "hello world"), w1)
    /\ cachedValue bound w1 vid "en" = Some "hello world"
    /\ getTranscriptWithAutoDetection onlyEnglish vid bound w1
       = Some (Return "hello world", w1)
    /\ "hello world" <> autoDetectedNote "en" "hello world".
Proof.
  eexists. split; [vm_compute; reflexivity|].
  split; [vm_compute; reflexivity|].
  split; [vm_compute; reflexivity | discriminate].
Qed.

(** C2, the code at the failing input.  English fails with a
    language-related error; Spanish then fails three times with a rate-limit
    error, which is not language-related.  No further candidate is tried,
    but what is thrown is the aggregate of the English failure, not the
    rate-limit error and not its message. *)
Lemma autoDetection_drops_terminal_error :
  exists e w1 w2,
    Youtube.getTranscript noEnglishThenThrottled vid "es"
      (called vid "en" emptyWorld) = Some (Throw e, w1)
    /\ errClass e = RateLimitError
    /\ isLanguageRelatedError e = false
    /\ handleYouTubeErrors (Some e)
       = "Service temporarily busy, try again in a few minutes."
    /\ getTranscriptWithAutoDetection noEnglishThenThrottled vid bound
         emptyWorld
       = Some (Throw (mkError PlainError
                 ("No transcript available in any tested language. Tried: "
                  +:+ "en: No transcript found for " +:+ vid
                  +:+ " (lang: en). Transcripts may be disabled.")), w2)
    /\ upstreamCalls w2
       = [(vid, "es"); (vid, "es"); (vid, "es"); (vid, "en")].
Proof.
  do 3 eexists. split; [vm_compute; reflexivity|].
  repeat split; vm_compute; reflexivity.
Qed.

(** C3, the code at the failing inputs.  With the stored error "No transcript
    available" cached for [(vid, tr)], a request for [tr] is not answered by
    that error: the English fallback runs, calls the upstream for [en] and
    returns the English transcript.  With the stored error "Service
    temporarily busy" cached, the request throws a different message and
    overwrites the entry with it. *)
Lemma stored_error_not_reraised :
  (exists w1,
      getTranscriptWithFallback onlyEnglish vid bound "tr"
        (withStoredError "Error: No transcript available for this video.")
      = Some (Return (fallbackNote "tr" "hello world"), w1)
      /\ upstreamCalls w1 = [(vid, "en")])
  /\ (exists w1,
         getTranscriptWithFallback onlyEnglish vid bound "tr"
           (withStoredError
              "Error: Service temporarily busy, try again in a few minutes.")
         = Some (Throw (mkError PlainError
                   "An unexpected error occurred while fetching the transcript."),
                 w1)
         /\ upstreamCalls w1 = []
         /\ cachedValue bound w1 vid "tr"
            = Some "Error: An unexpected error occurred while fetching the transcript.").
Proof.
  split; eexists; (split; [vm_compute; reflexivity|]);
    repeat split; vm_compute; reflexivity.
Qed.

(** C8, counterexample.  A transcript that begins with [Error:] is written
    as a success (long TTL); the next request for the same pair reads it as a
    stored error, throws, and replaces the entry. *)
Lemma transcript_with_prefix_read_as_error :
  exists w1 w2,
    getTranscriptWithFallback errorSong vid bound "en" emptyWorld
    = Some (Return "Error: 404 is my favourite song", w1)
    /\ puts w1 = [mkPut (Cache.getTranscriptCacheKey vid "en")
                        "Error: 404 is my favourite song"
                        Cache.SUCCESSFUL_TRANSCRIPT_TTL_SECONDS]
    /\ Cache.isStoredError "Error: 404 is my favourite song" = true
    /\ getTranscriptWithFallback errorSong vid bound "en" w1
       = Some (Throw (mkError PlainError
                 "An unexpected error occurred while fetching the transcript."),
               w2)
    /\ upstreamCalls w2 = upstreamCalls w1.
Proof.
  do 2 eexists. split; [vm_compute; reflexivity|].
  split; [vm_compute; reflexivity|]. split; [reflexivity|].
  split; vm_compute; reflexivity.
Qed.

Lemma cache_tagging_round_trip_witness :
  Cache.isStoredError "hello world" = false
  /\ Cache.getCachedTranscript bound vid "en"
       (written vid "en" "hello world"
          Cache.SUCCESSFUL_TRANSCRIPT_TTL_SECONDS emptyWorld)
     = Some (Return (Some "hello world"),
             written vid "en" "hello world"
               Cache.SUCCESSFUL_TRANSCRIPT_TTL_SECONDS emptyWorld)
  /\ isCachedTranscript (Some "hello world") = true.
Proof.
  destruct (proj1 (proj2 (cache_tagging_round_trip onlyEnglish UrlParse.parse
                            vid "en" emptyWorld))
                  "hello world" eq_refl) as (_ & Hget & Hret).
  split; [reflexivity|]. split; [exact Hget|].
  exact (proj1 (Hret eq_refl)).
Defined.

(** A whole request, from the URL to the cache: a short link in auto-detect
    mode makes one put, under the key of [(vid, en)]. *)
Example getTranscript_short_link_auto :
  exists w1,
    Transcript.getTranscript UrlParse.parse onlyEnglish
      ("https://youtu.be/" +:+ vid +:+ "?si=abc") bound "auto" emptyWorld
    = Some (Return (autoDetectedNote "en" "hello world"), w1)
    /\ puts w1 = [mkPut (Cache.getTranscriptCacheKey vid "en") "hello world"
                        Cache.SUCCESSFUL_TRANSCRIPT_TTL_SECONDS]
    /\ upstreamCalls w1 = [(vid, "en")].
Proof.
  eexists. split; [vm_compute; reflexivity|].
  split; vm_compute; reflexivity.
Qed.

End TranscriptFacts.

(* ===================================================================== *)
(** * Sanitization: shape of the result *)
(* ===================================================================== *)

Module SanitizeFacts.

Import Js Logic Youtube.

Lemma isLF_neq (c : ascii) : isLF c = false -> LF <> c.
Proof. intros H Heq. subst c. discriminate H. Qed.

Lemma prefix_cons (a : ascii) (n : string) (c : ascii) (r : string) :
  String.prefix (String a n) (String c r)
  = if ascii_dec a c then String.prefix n r else false.
Proof. reflexivity. Qed.

Lemma prefix_nil (r : string) : String.prefix EmptyString r = true.
Proof. now destruct r. Qed.

Lemma ascii_dec_LF {A} (c : ascii) (x y : A) :
  (if ascii_dec LF c then x else y) = if isLF c then x else y.
Proof.
  destruct (ascii_dec LF c) as [Heq|Hne].
  - rewrite <- Heq. reflexivity.
  - destruct (isLF c) eqn:Hc; [|reflexivity].
    apply JsFacts.isLF_eq in Hc. congruence.
Qed.

Lemma prefix_LF2 (c : ascii) (r : string) :
  String.prefix LF2 (String c r)
  = isLF c && match r with
              | String c' _ => isLF c'
              | EmptyString => false
              end.
Proof.
  unfold LF2. rewrite prefix_cons, ascii_dec_LF.
  destruct r as [|c' r']; [now destruct (isLF c)|].
  rewrite prefix_cons, ascii_dec_LF, prefix_nil.
  now destruct (isLF c), (isLF c').
Qed.

Lemma includes_cons (c : ascii) (r needle : string) :
  includes (String c r) needle
  = String.prefix needle (String c r) || includes r needle.
Proof. reflexivity. Qed.

Lemma replaceLFRuns_true_first (s : string) :
  match replaceLFRuns true s with
  | String c _ => isLF c
  | EmptyString => false
  end = false.
Proof.
  induction s as [|c s IH]; [reflexivity|]. cbn [replaceLFRuns].
  destruct (isLF c) eqn:Hc; [exact IH | exact Hc].
Qed.

Lemma replaceLFRuns_no_LF2 (s : string) :
  forall inRun, includes (replaceLFRuns inRun s) LF2 = false.
Proof.
  induction s as [|c s IH]; intros inRun; [reflexivity|].
  cbn [replaceLFRuns]. destruct (isLF c) eqn:Hc.
  - destruct inRun; [apply IH|].
    rewrite includes_cons, prefix_LF2, IH, replaceLFRuns_true_first.
    now rewrite andb_false_r.
  - now rewrite includes_cons, prefix_LF2, Hc, IH.
Qed.

(** A string without two line feeds in a row is left as it is. *)
Lemma replaceLFRuns_fixed (s : string) :
  includes s LF2 = false ->
  replaceLFRuns false s = s
  /\ (match s with String c _ => isLF c | EmptyString => false end = false ->
      replaceLFRuns true s = s).
Proof.
  induction s as [|c s IH]; intros Hno; [now split|].
  rewrite includes_cons, prefix_LF2 in Hno.
  apply orb_false_iff in Hno. destruct Hno as [Hpre Hrest].
  destruct (IH Hrest) as [IHf IHt]. cbn [replaceLFRuns].
  destruct (isLF c) eqn:Hc.
  - cbn [andb] in Hpre. rewrite (IHt Hpre).
    apply JsFacts.isLF_eq in Hc. subst c. split; [reflexivity|discriminate].
  - rewrite IHf. now split.
Qed.

Lemma trimStart_suffix (s : string) :
  exists p, s = p +:+ trimStart s.
Proof.
  induction s as [|c s [p Hp]]; [now exists EmptyString|].
  cbn [trimStart]. destruct (isWhiteSpace c).
  - exists (String c p).
    change (String c s = String c (p +:+ trimStart s)). now f_equal.
  - now exists EmptyString.
Qed.

Lemma trimEnd_prefix (s : string) :
  exists u, s = trimEnd s +:+ u.
Proof.
  induction s as [|c s [u Hu]]; [now exists EmptyString|].
  cbn [trimEnd]. destruct (isEmpty (trimEnd s) && isWhiteSpace c).
  - now exists (String c s).
  - exists u. change (String c s = String c (trimEnd s +:+ u)). now f_equal.
Qed.

Lemma prefix_app_r (needle a u : string) :
  String.prefix needle a = true -> String.prefix needle (a +:+ u) = true.
Proof.
  revert a. induction needle as [|n needle IH]; intros a H.
  - now destruct (a +:+ u).
  - destruct a as [|c a]; [discriminate H|]. simpl in *.
    destruct (ascii_dec n c); [now apply IH | discriminate H].
Qed.

Lemma includes_app_r (a u needle : string) :
  includes a needle = true -> includes (a +:+ u) needle = true.
Proof.
  induction a as [|c a IH]; intros H.
  - cbn in H. rewrite orb_false_r in H. destruct needle; [|discriminate H].
    now destruct u.
  - rewrite includes_cons in H.
    change (String c a +:+ u) with (String c (a +:+ u)).
    rewrite includes_cons.
    apply orb_true_iff in H. apply orb_true_iff. destruct H as [H|H].
    + left. exact (prefix_app_r needle (String c a) u H).
    + right. now apply IH.
Qed.

Lemma includes_app_l (p s needle : string) :
  includes s needle = true -> includes (p +:+ s) needle = true.
Proof.
  induction p as [|c p IH]; intros H; [exact H|].
  change (String c p +:+ s) with (String c (p +:+ s)).
  rewrite includes_cons, (IH H). apply orb_true_r.
Qed.

Lemma trim_no_needle (s needle : string) :
  includes s needle = false -> includes (trim s) needle = false.
Proof.
  intros Hno. unfold trim.
  destruct (includes (trimEnd (trimStart s)) needle) eqn:H; [|reflexivity].
  destruct (trimEnd_prefix (trimStart s)) as [u Hu].
  apply includes_app_r with (u := u) in H. rewrite <- Hu in H.
  destruct (trimStart_suffix s) as [p Hp].
  apply includes_app_l with (p := p) in H. rewrite <- Hp in H. congruence.
Qed.

Lemma trimStart_first (s : string) (c : ascii) :
  firstUnit (trimStart s) = Some c -> isWhiteSpace c = false.
Proof.
  induction s as [|a s IH]; [discriminate|]. cbn [trimStart].
  destruct (isWhiteSpace a) eqn:Ha; [exact IH|].
  cbn. intros H. injection H as <-. exact Ha.
Qed.

Lemma trimEnd_first (s : string) (c : ascii) :
  firstUnit (trimEnd s) = Some c -> firstUnit s = Some c.
Proof.
  destruct s as [|a s]; [discriminate|]. cbn [trimEnd].
  destruct (isEmpty (trimEnd s) && isWhiteSpace a); [discriminate|].
  exact (fun H => H).
Qed.

Lemma trimEnd_last (s : string) (c : ascii) :
  lastUnit (trimEnd s) = Some c -> isWhiteSpace c = false.
Proof.
  induction s as [|a s IH]; [discriminate|]. cbn [trimEnd].
  destruct (isEmpty (trimEnd s)) eqn:He; cbn [andb].
  - destruct (isWhiteSpace a) eqn:Ha; [discriminate|].
    cbn [lastUnit]. rewrite He. intros H. injection H as <-. exact Ha.
  - cbn [lastUnit]. rewrite He. exact IH.
Qed.

Lemma trimEnd_idem (s : string) : trimEnd (trimEnd s) = trimEnd s.
Proof.
  induction s as [|a s IH]; [reflexivity|]. cbn [trimEnd].
  destruct (isEmpty (trimEnd s) && isWhiteSpace a) eqn:Hc; [reflexivity|].
  cbn [trimEnd]. now rewrite IH, Hc.
Qed.

Lemma trimStart_fixed (s : string) :
  (forall c, firstUnit s = Some c -> isWhiteSpace c = false) ->
  trimStart s = s.
Proof.
  destruct s as [|a s]; [reflexivity|]. intros H. cbn [trimStart].
  now rewrite (H a eq_refl).
Qed.

Lemma trim_idem (s : string) : trim (trim s) = trim s.
Proof.
  unfold trim. rewrite trimStart_fixed.
  - apply trimEnd_idem.
  - intros c Hc. apply trimEnd_first in Hc. exact (trimStart_first _ _ Hc).
Qed.

(** X1.  The sanitized text never contains two line feeds in a row, and its
    first and its last code unit, when it is not empty, are not white
    space. *)
Theorem sanitizeTranscriptText_shape (transcript : string) :
  includes (sanitizeTranscriptText transcript) LF2 = false
  /\ (forall c, firstUnit (sanitizeTranscriptText transcript) = Some c ->
                isWhiteSpace c = false)
  /\ (forall c, lastUnit (sanitizeTranscriptText transcript) = Some c ->
                isWhiteSpace c = false).
Proof.
  unfold sanitizeTranscriptText.
  destruct (negb (truthy transcript));
    [split; [reflexivity|split; discriminate]|].
  split; [|split].
  - apply trim_no_needle, replaceLFRuns_no_LF2.
  - intros c Hc. unfold trim in Hc. apply trimEnd_first in Hc.
    exact (trimStart_first _ _ Hc).
  - intros c. apply trimEnd_last.
Qed.

(** X2.  Sanitizing is idempotent: a sanitized text is left as it is. *)
Theorem sanitizeTranscriptText_idempotent (transcript : string) :
  sanitizeTranscriptText (sanitizeTranscriptText transcript)
  = sanitizeTranscriptText transcript.
Proof.
  destruct transcript as [|a t]; [reflexivity|].
  change (sanitizeTranscriptText (String a t))
    with (trim (replaceLFRuns false (String a t))).
  set (r := trim (replaceLFRuns false (String a t))).
  unfold sanitizeTranscriptText. destruct (negb (truthy r)) eqn:Hr.
  - destruct r; [reflexivity|discriminate Hr].
  - assert (Hno : includes r LF2 = false)
      by apply trim_no_needle, replaceLFRuns_no_LF2.
    rewrite (proj1 (replaceLFRuns_fixed r Hno)). apply trim_idem.
Qed.

Lemma sanitizeTranscriptText_shape_witness :
  isWhiteSpace "a" = false /\ isWhiteSpace "b" = false.
Proof.
  destruct (sanitizeTranscriptText_shape Scenarios.rawExample)
    as (_ & Hfirst & Hlast).
  split; [exact (Hfirst "a"%char eq_refl) | exact (Hlast "b"%char eq_refl)].
Defined.

End SanitizeFacts.

(* ===================================================================== *)
(** * Retry-fetch protocol: backoff and thrown errors *)
(* ===================================================================== *)

Module RetryFacts.

Import Runtime Logic RuntimeFacts Youtube YoutubeFacts.

Section WithUpstream.

Variable fetchTranscript :
  list (string * string) -> string -> string -> UpstreamResult.

Local Abbreviation retryLoop := (retryLoop fetchTranscript).
Local Abbreviation getTranscript := (getTranscript fetchTranscript).

(** A retried failure: one call, one timer, and the loop goes on with the
    backoff doubled. *)
Lemma retryLoop_retry fuel videoId language attempts backoff w msg :
  Nat.ltb attempts MAX_RETRIES = true ->
  Nat.leb MAX_RETRIES (S attempts) = false ->
  fetchTranscript (upstreamCalls w) videoId language = Failure msg ->
  retryable msg = true ->
  retryLoop (S fuel) videoId language attempts backoff w
  = retryLoop fuel videoId language (S attempts) (backoff * 2)
      (slept (delayFor msg (S attempts) backoff) (called videoId language w)).
Proof.
  intros Hlt Hleb Hf Hr.
  rewrite retryLoop_Failure with (msg := msg); [|exact Hlt|exact Hf].
  cbv zeta. unfold retryable in Hr. unfold delayFor.
  destruct (classify msg); try discriminate Hr; now rewrite Hleb.
Qed.

(** The last attempt ends the loop after its call, whatever the answer. *)
Lemma retryLoop_last fuel videoId language attempts backoff w :
  Nat.ltb attempts MAX_RETRIES = true ->
  Nat.leb MAX_RETRIES (S attempts) = true ->
  exists c,
    retryLoop (S fuel) videoId language attempts backoff w
    = Some (c, called videoId language w)
    /\ forall e, c = Throw e -> thrownBy videoId language e.
Proof.
  intros Hlt Hleb.
  assert (Hthree : S attempts = 3%nat).
  { pose proof (proj1 (Nat.ltb_lt _ _) Hlt).
    pose proof (proj1 (Nat.leb_le _ _) Hleb).
    unfold MAX_RETRIES in *. lia. }
  destruct (fetchTranscript (upstreamCalls w) videoId language)
    as [raw|msg] eqn:Hf.
  - eexists. split; [exact (retryLoop_Segments _ _ _ _ _ _ _ _ Hlt Hf)|].
    discriminate.
  - rewrite retryLoop_Failure with (msg := msg); [|exact Hlt|exact Hf].
    cbv zeta. rewrite Hleb, Hthree.
    destruct (classify msg); eexists; (split; [reflexivity|]);
      intros e He; injection He as <-; constructor.
Qed.

(** A failure that throws at once. *)
Lemma retryLoop_terminal fuel videoId language attempts backoff w msg :
  Nat.ltb attempts MAX_RETRIES = true ->
  fetchTranscript (upstreamCalls w) videoId language = Failure msg ->
  retryable msg = false ->
  exists e,
    retryLoop (S fuel) videoId language attempts backoff w
    = Some (Throw e, called videoId language w)
    /\ thrownBy videoId language e.
Proof.
  intros Hlt Hf Hr.
  rewrite retryLoop_Failure with (msg := msg); [|exact Hlt|exact Hf].
  cbv zeta. unfold retryable in Hr.
  destruct (classify msg); try discriminate Hr;
    eexists; (split; [reflexivity|constructor]).
Qed.

(** Calls, timers and thrown errors of the loop from any attempt on. *)
Lemma retryLoop_timers fuel videoId language :
  forall attempts backoff w,
    (attempts < MAX_RETRIES)%nat ->
    (MAX_RETRIES < fuel + attempts)%nat ->
    0 < backoff ->
    wp (retryLoop fuel videoId language attempts backoff)
       (fun c w' =>
          exists new,
            upstreamCalls w'
            = repeat (videoId, language) (S (length new)) ++ upstreamCalls w
            /\ timers w' = new ++ timers w
            /\ (S (length new) + attempts <= MAX_RETRIES)%nat
            /\ Forall (fun d => backoff <= d) new
            /\ totalDelay new
               <= backoff * match attempts with
                            | 0%nat => 8
                            | 1%nat => 3
                            | _ => 0
                            end
            /\ forall e, c = Throw e -> thrownBy videoId language e) w.
Proof.
  induction fuel as [|fuel IH]; intros attempts backoff w Hlt Hfuel Hb; [lia|].
  assert (Hltb : Nat.ltb attempts MAX_RETRIES = true) by now apply Nat.ltb_lt.
  assert (Hdone : forall c : Completion string,
             (forall e, c = Throw e -> thrownBy videoId language e) ->
             exists new : list Z,
               upstreamCalls (called videoId language w)
               = repeat (videoId, language) (S (length new)) ++ upstreamCalls w
               /\ timers (called videoId language w) = new ++ timers w
               /\ (S (length new) + attempts <= MAX_RETRIES)%nat
               /\ Forall (fun d => backoff <= d) new
               /\ totalDelay new
                  <= backoff * match attempts with
                               | 0%nat => 8
                               | 1%nat => 3
                               | _ => 0
                               end
               /\ forall e, c = Throw e -> thrownBy videoId language e).
  { intros c Hc. exists []. cbn. repeat split; auto;
      first [ unfold MAX_RETRIES in *; lia
            | destruct attempts as [|[|?]]; lia ]. }
  unfold wp.
  destruct (Nat.leb MAX_RETRIES (S attempts)) eqn:Hleb.
  { destruct (retryLoop_last fuel videoId language attempts backoff w
                Hltb Hleb) as (c & -> & Hc). now apply Hdone. }
  destruct (fetchTranscript (upstreamCalls w) videoId language)
    as [raw|msg] eqn:Hf.
  { rewrite (retryLoop_Segments _ _ _ _ _ _ _ _ Hltb Hf).
    apply Hdone. discriminate. }
  destruct (retryable msg) eqn:Hr.
  2:{ destruct (retryLoop_terminal fuel videoId language attempts backoff w
                  msg Hltb Hf Hr) as (e & -> & He).
      apply Hdone. intros e' He'. now injection He' as <-. }
  rewrite (retryLoop_retry _ _ _ _ _ _ _ Hltb Hleb Hf Hr).
  apply Nat.leb_gt in Hleb.
  set (d := delayFor msg (S attempts) backoff).
  assert (Hd : backoff <= d <= backoff * (Z.of_nat (S attempts) + 1)).
  { unfold d, delayFor. destruct (classify msg); nia. }
  pose proof (IH (S attempts) (backoff * 2)
                (slept d (called videoId language w))) as Hrec.
  unfold wp in Hrec.
  destruct (retryLoop fuel videoId language (S attempts) (backoff * 2)
              (slept d (called videoId language w))) as [[c w']|];
    [|apply Hrec; lia].
  destruct Hrec as (new & Hc & Ht & Hle & HF & Hsum & Hthrown); [lia..|].
  exists (new ++ [d]). rewrite length_app. cbn [length slept called timers
    upstreamCalls] in *.
  replace (length new + 1)%nat with (S (length new)) by lia.
  split; [|split; [|split; [lia|split; [|split; [|exact Hthrown]]]]].
  - rewrite Hc. now rewrite repeat_snoc_app.
  - rewrite Ht. now rewrite <- app_assoc.
  - apply Forall_app. split.
    + eapply Forall_impl; [exact HF|]. intros x Hx. cbn in Hx. lia.
    + constructor; [lia|constructor].
  - assert (Hsplit : totalDelay (new ++ [d]) = totalDelay new + d).
    { unfold totalDelay. clear. induction new as [|x new IH]; cbn; lia. }
    rewrite Hsplit. unfold MAX_RETRIES in *.
    destruct attempts as [|[|?]]; cbn in Hsum, Hd; lia.
Qed.

Lemma getTranscript_timers videoId language w :
  wp (getTranscript videoId language)
     (fun c w' =>
        exists new,
          upstreamCalls w'
          = repeat (videoId, language) (S (length new)) ++ upstreamCalls w
          /\ timers w' = new ++ timers w
          /\ (S (length new) + 0 <= MAX_RETRIES)%nat
          /\ Forall (fun d => INITIAL_BACKOFF_MS <= d) new
          /\ totalDelay new <= INITIAL_BACKOFF_MS * 8
          /\ forall e, c = Throw e -> thrownBy videoId language e) w.
Proof.
  apply (retryLoop_timers (S MAX_RETRIES) videoId language 0%nat
           INITIAL_BACKOFF_MS w); unfold MAX_RETRIES, INITIAL_BACKOFF_MS; lia.
Qed.

(** X3.  Every run of the retry-fetch awaits a timer between consecutive
    upstream calls only (one timer less than calls), so at most two; each
    timer is at least one second and together they are at most eight
    seconds. *)
Theorem getTranscript_backoff_bounded videoId language w :
  exists c w' new,
    getTranscript videoId language w = Some (c, w')
    /\ timers w' = new ++ timers w
    /\ upstreamCalls w'
       = repeat (videoId, language) (S (length new)) ++ upstreamCalls w
    /\ (length new <= 2)%nat
    /\ Forall (fun d => 1000 <= d) new
    /\ totalDelay new <= 8000.
Proof.
  destruct (wp_elim _ _ _ (getTranscript_timers videoId language w))
    as (c & w' & Hrun & new & Hc & Ht & Hle & HF & Hsum & _).
  exists c, w', new. unfold MAX_RETRIES, INITIAL_BACKOFF_MS in *.
  repeat split; auto; lia.
Qed.

(** X4.  The backoff schedule.  When the first two answers are failures that
    are retried, the third call is the last, and the two timers awaited are:
    after the first failure 1000 ms (2000 ms if it is rate-limit-shaped),
    after the second 2000 ms (6000 ms if it is rate-limit-shaped). *)
Theorem getTranscript_backoff_schedule videoId language w m1 m2 :
  fetchTranscript (upstreamCalls w) videoId language = Failure m1 ->
  retryable m1 = true ->
  fetchTranscript ((videoId, language) :: upstreamCalls w) videoId language
  = Failure m2 ->
  retryable m2 = true ->
  exists c w',
    getTranscript videoId language w = Some (c, w')
    /\ upstreamCalls w'
       = (videoId, language) :: (videoId, language) :: (videoId, language)
         :: upstreamCalls w
    /\ timers w'
       = match classify m2 with RateLimitShaped => 6000 | _ => 2000 end
         :: match classify m1 with RateLimitShaped => 2000 | _ => 1000 end
         :: timers w.
Proof.
  intros H1 R1 H2 R2. unfold Youtube.getTranscript, MAX_RETRIES.
  rewrite retryLoop_retry with (msg := m1);
    [|reflexivity|reflexivity|exact H1|exact R1].
  rewrite retryLoop_retry with (msg := m2);
    [|reflexivity|reflexivity|exact H2|exact R2].
  match goal with
  | |- context [Youtube.retryLoop _ (S ?f) ?v ?l ?a ?b ?w0] =>
      destruct (retryLoop_last f v l a b w0) as (c & Hrun & _);
        [reflexivity|reflexivity|]
  end.
  exists c. eexists. split; [exact Hrun|].
  split; [reflexivity|]. cbn [timers called slept].
  unfold delayFor, INITIAL_BACKOFF_MS.
  destruct (classify m1), (classify m2); reflexivity.
Qed.

(** X5.  A retried failure followed by an answer with segments: the
    transcript is returned after two upstream calls and one timer. *)
Theorem getTranscript_retry_then_success videoId language w m1 raw :
  fetchTranscript (upstreamCalls w) videoId language = Failure m1 ->
  retryable m1 = true ->
  fetchTranscript ((videoId, language) :: upstreamCalls w) videoId language
  = Segments raw ->
  exists w',
    getTranscript videoId language w
    = Some (Return (sanitizeTranscriptText (Js.join " " (map text raw))), w')
    /\ upstreamCalls w'
       = (videoId, language) :: (videoId, language) :: upstreamCalls w
    /\ timers w'
       = match classify m1 with RateLimitShaped => 2000 | _ => 1000 end
         :: timers w
    /\ store w' = store w /\ puts w' = puts w.
Proof.
  intros H1 R1 H2. unfold Youtube.getTranscript, MAX_RETRIES.
  rewrite retryLoop_retry with (msg := m1);
    [|reflexivity|reflexivity|exact H1|exact R1].
  rewrite retryLoop_Segments with (raw := raw); [|reflexivity|exact H2].
  eexists. split; [reflexivity|]. split; [reflexivity|].
  split; [|split; reflexivity]. cbn [timers called slept].
  unfold delayFor, INITIAL_BACKOFF_MS. destruct (classify m1); reflexivity.
Qed.

Lemma toLowerCase_app (a b : string) :
  Js.toLowerCase (a +:+ b) = Js.toLowerCase a +:+ Js.toLowerCase b.
Proof.
  induction a as [|c a IH]; [reflexivity|].
  change (String c a +:+ b) with (String c (a +:+ b)).
  cbn [Js.toLowerCase]. rewrite IH. reflexivity.
Qed.

(** A message that begins with a text mentioning "transcript" is
    language-related for the resolution. *)
Lemma isLanguageRelatedError_prefix cls (p rest : string) :
  Js.truthy p = true ->
  Js.includes (Js.toLowerCase p) "transcript" = true ->
  Transcript.isLanguageRelatedError (mkError cls (p +:+ rest)) = true.
Proof.
  intros Hp Hin. unfold Transcript.isLanguageRelatedError. cbn [message].
  assert (Ht : Js.truthy (p +:+ rest) = true)
    by (destruct p; [discriminate Hp | reflexivity]).
  rewrite Ht. cbn [negb]. rewrite toLowerCase_app.
  rewrite (SanitizeFacts.includes_app_r _ (Js.toLowerCase rest) _ Hin).
  now rewrite !orb_true_r.
Qed.

Lemma thrownBy_languageRelated videoId language e :
  thrownBy videoId language e ->
  errClass e = VideoUnavailableError \/ errClass e = PlainError ->
  Transcript.isLanguageRelatedError e = true.
Proof.
  intros [msg|msg| | |msg] [Hc|Hc]; try discriminate Hc.
  - exact (isLanguageRelatedError_prefix VideoUnavailableError
             "No transcript found for " _ eq_refl eq_refl).
  - exact (isLanguageRelatedError_prefix PlainError
             "Failed to fetch transcript for " _ eq_refl eq_refl).
Qed.

(** X6.  Whenever the retry-fetch throws [VideoUnavailableError] or the
    plain [Error] of exhausted retries, the resolution's
    [isLanguageRelatedError] answers true for it (its text mentions
    "transcript"), whatever the video id, the language and the upstream
    message. *)
Theorem getTranscript_unavailable_is_language_related
        videoId language w e w' :
  getTranscript videoId language w = Some (Throw e, w') ->
  errClass e = VideoUnavailableError \/ errClass e = PlainError ->
  Transcript.isLanguageRelatedError e = true.
Proof.
  intros Hrun Hc.
  pose proof (getTranscript_timers videoId language w) as Hpost.
  unfold wp in Hpost. rewrite Hrun in Hpost.
  destruct Hpost as (new & _ & _ & _ & _ & _ & Hthrown).
  exact (thrownBy_languageRelated _ _ _ (Hthrown e eq_refl) Hc).
Qed.

(** X22.  After two retried failures the third failure alone decides what is
    thrown: its shape gives the class and its message the text; the messages
    of the earlier failures are not kept.  In particular three failures of no
    known shape end in the plain [Error] "Failed to fetch transcript for <id>
    after 3 attempts: <last message>". *)
Theorem getTranscript_last_failure_decides videoId language w m1 m2 m3 :
  fetchTranscript (upstreamCalls w) videoId language = Failure m1 ->
  retryable m1 = true ->
  fetchTranscript ((videoId, language) :: upstreamCalls w) videoId language
  = Failure m2 ->
  retryable m2 = true ->
  fetchTranscript ((videoId, language) :: (videoId, language)
                   :: upstreamCalls w) videoId language = Failure m3 ->
  exists w',
    getTranscript videoId language w
    = Some (Throw (terminalError videoId language m3), w')
    /\ upstreamCalls w'
       = (videoId, language) :: (videoId, language) :: (videoId, language)
         :: upstreamCalls w.
Proof.
  intros H1 R1 H2 R2 H3. unfold Youtube.getTranscript, MAX_RETRIES.
  rewrite retryLoop_retry with (msg := m1);
    [|reflexivity|reflexivity|exact H1|exact R1].
  rewrite retryLoop_retry with (msg := m2);
    [|reflexivity|reflexivity|exact H2|exact R2].
  rewrite retryLoop_Failure with (msg := m3); [|reflexivity|exact H3].
  cbv zeta. unfold terminalError, unavailableError, MAX_RETRIES.
  cbn [Nat.leb]. destruct (classify m3); eexists; split; reflexivity.
Qed.

End WithUpstream.

Import Scenarios.

Lemma getTranscript_backoff_schedule_witness :
  exists c w',
    Youtube.getTranscript throttled vid "en" emptyWorld = Some (c, w')
    /\ upstreamCalls w' = [(vid, "en"); (vid, "en"); (vid, "en")]
    /\ timers w' = [2000; 2000].
Proof.
  exact (getTranscript_backoff_schedule throttled vid "en" emptyWorld
           "429" "request timed out" eq_refl eq_refl eq_refl eq_refl).
Defined.

Lemma getTranscript_retry_then_success_witness :
  exists w',
    Youtube.getTranscript resetThenSegments vid "en" emptyWorld
    = Some (Return ("a" +:+ String Js.LF " b"), w')
    /\ upstreamCalls w' = [(vid, "en"); (vid, "en")]
    /\ timers w' = [1000]
    /\ store w' = ∅ /\ puts w' = [].
Proof.
  exact (getTranscript_retry_then_success resetThenSegments vid "en"
           emptyWorld "read ECONNRESET"
           [item ("a" +:+ String Js.LF (String Js.LF EmptyString)); item "b "]
           eq_refl eq_refl eq_refl).
Defined.

Lemma getTranscript_unavailable_is_language_related_witness :
  Transcript.isLanguageRelatedError
    (mkError VideoUnavailableError
       ("No transcript found for " +:+ vid
        +:+ " (lang: tr). Transcripts may be disabled.")) = true.
Proof.
  exact (getTranscript_unavailable_is_language_related noTranscriptThenOk
           vid "tr" emptyWorld _ (called vid "tr" emptyWorld) eq_refl
           (or_introl eq_refl)).
Defined.

Lemma getTranscript_last_failure_decides_witness :
  exists w',
    Youtube.getTranscript alwaysBoom vid "en" emptyWorld
    = Some (Throw (mkError PlainError
              ("Failed to fetch transcript for " +:+ vid
               +:+ " after 3 attempts: boom")), w')
    /\ upstreamCalls w' = [(vid, "en"); (vid, "en"); (vid, "en")].
Proof.
  exact (getTranscript_last_failure_decides alwaysBoom vid "en" emptyWorld
           "boom" "boom" "boom" eq_refl eq_refl eq_refl eq_refl eq_refl).
Defined.

End RetryFacts.

(* ===================================================================== *)
(** * Error messages *)
(* ===================================================================== *)

Module ErrorFacts.

Import Youtube.

(** The six texts [handleYouTubeErrors] can answer. *)
Lemma handleYouTubeErrors_range (error : option JsError) :
  In (handleYouTubeErrors error)
     [ "No transcript available for this video.";
       "Service temporarily busy, try again in a few minutes.";
       "Unable to fetch transcript, please try again.";
       "Video not found or private.";
       "Transcripts are disabled for this video.";
       "An unexpected error occurred while fetching the transcript." ].
Proof.
  destruct error as [[cls m]|]; [|cbn; tauto].
  destruct cls; cbn [handleYouTubeErrors In]; try tauto.
  destruct (Js.truthy m
            && (Js.includes m "not found or private"
                || Js.includes m "Invalid video ID")); [tauto|].
  destruct (Js.truthy m && Js.includes m "transcripts disabled"); [tauto|].
  destruct (Js.truthy m && Js.includes m "No transcript found"); tauto.
Qed.

(** X7.  A classified message does not survive the cache.  When a stored
    error, the text [Error: ] followed by a message of [handleYouTubeErrors],
    is thrown again as a plain [Error] and classified once more, only
    "Video not found or private." comes out as it went in; each of the other
    five messages becomes "An unexpected error occurred while fetching the
    transcript." *)
Theorem handleYouTubeErrors_of_stored_error (error : option JsError) :
  handleYouTubeErrors
    (Some (mkError PlainError ("Error: " +:+ handleYouTubeErrors error)))
  = if String.eqb (handleYouTubeErrors error) "Video not found or private."
    then "Video not found or private."
    else "An unexpected error occurred while fetching the transcript.".
Proof.
  pose proof (handleYouTubeErrors_range error) as H. cbn [In] in H.
  repeat (destruct H as [H|H]; [rewrite <- H; vm_compute; reflexivity|]).
  contradiction.
Qed.

(** X26.  A stored error thrown again as a plain [Error] counts as
    language-related, and so sends a request for another language than
    English into the English fallback, unless its message is the busy one or
    the private one. *)
Theorem stored_error_language_related (error : option JsError) :
  Transcript.isLanguageRelatedError
    (mkError PlainError ("Error: " +:+ handleYouTubeErrors error))
  = negb (String.eqb (handleYouTubeErrors error)
            "Service temporarily busy, try again in a few minutes."
          || String.eqb (handleYouTubeErrors error)
               "Video not found or private.").
Proof.
  pose proof (handleYouTubeErrors_range error) as H. cbn [In] in H.
  repeat (destruct H as [H|H]; [rewrite <- H; vm_compute; reflexivity|]).
  contradiction.
Qed.

End ErrorFacts.

(* ===================================================================== *)
(** * Cache: keys, writes and reads *)
(* ===================================================================== *)

Module CacheFacts.

Import Runtime Logic Cache.

Lemma includes_colon_cons (c : ascii) (r : string) :
  Js.includes (String c r) ":" = false ->
  c <> ":"%char /\ Js.includes r ":" = false.
Proof.
  rewrite SanitizeFacts.includes_cons. intros H.
  apply orb_false_iff in H. destruct H as [Hp Hr]. split; [|exact Hr].
  intros ->. rewrite SanitizeFacts.prefix_cons in Hp.
  rewrite SanitizeFacts.prefix_nil in Hp.
  destruct (ascii_dec ":" ":"); [discriminate Hp | contradiction].
Qed.

Lemma colon_split (v v' l l' : string) :
  Js.includes v ":" = false ->
  Js.includes v' ":" = false ->
  v +:+ ":" +:+ l = v' +:+ ":" +:+ l' ->
  v = v' /\ l = l'.
Proof.
  revert v'. induction v as [|c v IH]; intros v' Hv Hv' Heq.
  - destruct v' as [|c' v'].
    + change (String ":"%char l = String ":"%char l') in Heq.
      now injection Heq as ->.
    + change (String ":"%char l = String c' (v' +:+ ":" +:+ l')) in Heq.
      injection Heq as Hc _.
      destruct (includes_colon_cons _ _ Hv') as [Hne _]. now subst c'.
  - destruct (includes_colon_cons _ _ Hv) as [Hne Hr].
    destruct v' as [|c' v'].
    + change (String c (v +:+ ":" +:+ l) = String ":"%char l') in Heq.
      injection Heq as Hc _. contradiction.
    + change (String c (v +:+ ":" +:+ l) = String c' (v' +:+ ":" +:+ l'))
        in Heq.
      injection Heq as <- Heq.
      destruct (includes_colon_cons _ _ Hv') as [_ Hr'].
      destruct (IH v' Hr Hr' Heq) as [-> ->]. now split.
Qed.

Lemma append_assoc (a b c : string) : (a +:+ b) +:+ c = a +:+ b +:+ c.
Proof.
  induction a as [|x a IH]; [reflexivity|].
  change (String x ((a +:+ b) +:+ c) = String x (a +:+ b +:+ c)).
  now rewrite IH.
Qed.

(** X8.  Cache keys tell (video id, language) pairs apart as long as the ids
    contain no colon; with a colon in the id, two different pairs share one
    key. *)
Theorem getTranscriptCacheKey_injective videoId language videoId' language' :
  (Js.includes videoId ":" = false ->
   Js.includes videoId' ":" = false ->
   getTranscriptCacheKey videoId language
   = getTranscriptCacheKey videoId' language' ->
   videoId = videoId' /\ language = language')
  /\ getTranscriptCacheKey (videoId +:+ ":" +:+ videoId') language
     = getTranscriptCacheKey videoId (videoId' +:+ ":" +:+ language).
Proof.
  split.
  - intros Hv Hv' Heq. unfold getTranscriptCacheKey in Heq.
    apply JsFacts.append_inj_l in Heq.
    exact (colon_split _ _ _ _ Hv Hv' Heq).
  - unfold getTranscriptCacheKey. f_equal.
    now rewrite !append_assoc.
Qed.

Lemma getTranscriptCacheKey_injective_witness :
  "dQw4w9WgXcQ" = "dQw4w9WgXcQ" /\ "en" = "en".
Proof.
  exact (proj1 (getTranscriptCacheKey_injective "dQw4w9WgXcQ" "en"
                  "dQw4w9WgXcQ" "en") eq_refl eq_refl eq_refl).
Defined.

(** X9.  With the cache bound, a write is read back as written, whatever
    the data and the error flag; it replaces what the key held before, gets
    the TTL of its class (300 s for errors, 604800 s otherwise), and leaves
    the entries of the other languages of the same video as they were. *)
Theorem setCachedTranscript_then_get videoId language data isError w :
  exists w',
    setCachedTranscript (mkEnv true) videoId language data isError w
    = Some (Return tt, w')
    /\ getCachedTranscript (mkEnv true) videoId language w'
       = Some (Return (Some data), w')
    /\ store w' !! getTranscriptCacheKey videoId language
       = Some (data, if isError then 300 else 604800)
    /\ (forall other,
           other <> language ->
           getCachedTranscript (mkEnv true) videoId other w'
           = Some (Return (cachedValue (mkEnv true) w videoId other), w')).
Proof.
  exists (written videoId language data
            (if isError then ERROR_RESPONSE_TTL_SECONDS
             else SUCCESSFUL_TRANSCRIPT_TTL_SECONDS) w).
  split; [reflexivity|].
  unfold getCachedTranscript, cachedValue, written.
  cbn [TRANSCRIPT_CACHE negb store].
  split; [now rewrite lookup_insert_eq|].
  split; [rewrite lookup_insert_eq; now destruct isError|].
  intros other Hne. rewrite lookup_insert_ne; [reflexivity|].
  intros Hk. apply Hne. symmetry.
  exact (TranscriptFacts.key_inj _ _ _ Hk).
Qed.

Lemma setCachedTranscript_then_get_witness :
  getCachedTranscript (mkEnv true) Scenarios.vid "tr"
    (written Scenarios.vid "en" "hello" 604800 Scenarios.emptyWorld)
  = Some (Return None,
          written Scenarios.vid "en" "hello" 604800 Scenarios.emptyWorld).
Proof.
  destruct (setCachedTranscript_then_get Scenarios.vid "en" "hello" false
              Scenarios.emptyWorld) as (w' & Hset & _ & _ & Hother).
  injection Hset as <-. apply (Hother "tr"). discriminate.
Defined.

End CacheFacts.

(* ===================================================================== *)
(** * Resolution strategy: upstream load *)
(* ===================================================================== *)

Module LoadFacts.

Import Runtime Logic RuntimeFacts Youtube Transcript TranscriptFacts.

(** Properties of worlds kept by the resolution when only the fetches for
    the languages in [okLang] are known to keep them. *)
Section FetchInvariant.

Variable fetchTranscript :
  list (string * string) -> string -> string -> UpstreamResult.
Variable videoId : string.
Variable env : Env.
Variable I : World -> Prop.
Variable okLang : string -> Prop.

Hypothesis I_fetch :
  forall language,
    okLang language ->
    preserves I (fetchTranscriptFromYouTube fetchTranscript videoId language).
Hypothesis I_set :
  forall language data isError,
    preserves I
      (when (TRANSCRIPT_CACHE env)
         (Cache.setCachedTranscript env videoId language data isError)).

Lemma tryLanguage_keeps lang :
  okLang lang -> preserves I (tryLanguage fetchTranscript videoId env lang).
Proof.
  intros Hok. unfold tryLanguage.
  apply preserves_bind; [apply getCachedTranscript_preserves|].
  intros cached. destruct (isCachedTranscript cached);
    [apply preserves_ret|].
  apply preserves_bind; [now apply I_fetch|]. intros t.
  apply preserves_bind; [apply I_set|]. intros _. apply preserves_ret.
Qed.

Lemma autoDetectionLoop_keeps langs :
  (forall lang, In lang langs -> okLang lang) ->
  forall lastError availableLanguages,
    preserves I (autoDetectionLoop fetchTranscript videoId env langs
                   lastError availableLanguages).
Proof.
  induction langs as [|lang rest IH]; intros Hok lastError avail;
    cbn [autoDetectionLoop]; [apply preserves_ret|].
  apply preserves_bind.
  - apply preserves_attempt, tryLanguage_keeps, Hok. now left.
  - intros [result|error]; [apply preserves_ret|].
    destruct (isLanguageRelatedError error); cbn [negb];
      [|apply preserves_ret].
    apply IH. intros l Hin. apply Hok. now right.
Qed.

Lemma getTranscriptWithAutoDetection_keeps :
  (forall lang, In lang languagesToTry -> okLang lang) ->
  preserves I (getTranscriptWithAutoDetection fetchTranscript videoId env).
Proof.
  intros Hok. unfold getTranscriptWithAutoDetection.
  apply preserves_bind; [now apply autoDetectionLoop_keeps|].
  intros [result|[lastError avail]];
    [apply preserves_ret | apply preserves_throw].
Qed.

Lemma getTranscriptWithFallback_keeps requestedLanguage :
  okLang requestedLanguage -> okLang "en" ->
  preserves I
    (getTranscriptWithFallback fetchTranscript videoId env requestedLanguage).
Proof.
  intros Hreq Hen. unfold getTranscriptWithFallback.
  assert (Htry : preserves I
            (tryRequested fetchTranscript videoId env requestedLanguage)).
  { unfold tryRequested. cbv zeta.
    assert (Hfetch : preserves I
              (let* transcript :=
                 fetchTranscriptFromYouTube fetchTranscript videoId
                   requestedLanguage in
               run* when (TRANSCRIPT_CACHE env)
                      (Cache.setCachedTranscript env videoId requestedLanguage
                         transcript false) in
               ret transcript)).
    { apply preserves_bind; [now apply I_fetch|]. intros t.
      apply preserves_bind; [apply I_set|]. intros _. apply preserves_ret. }
    apply preserves_bind; [apply getCachedTranscript_preserves|].
    intros [d|]; [|exact Hfetch].
    destruct (Js.truthy d); [|exact Hfetch].
    destruct (Cache.isStoredError d);
      [apply preserves_throw | apply preserves_ret]. }
  assert (Henglish : preserves I
            (tryEnglish fetchTranscript videoId env requestedLanguage)).
  { unfold tryEnglish.
    apply preserves_bind; [apply getCachedTranscript_preserves|].
    intros cached. destruct (isCachedTranscript cached);
      [apply preserves_ret|].
    apply preserves_bind; [now apply I_fetch|]. intros t.
    apply preserves_bind; [apply I_set|]. intros _. apply preserves_ret. }
  apply preserves_bind; [now apply preserves_attempt|].
  intros [result|error]; [apply preserves_ret|].
  unfold catchRequested.
  destruct (isLanguageRelatedError error
            && negb (String.eqb requestedLanguage "en")).
  - apply preserves_bind; [now apply preserves_attempt|].
    intros [result|englishError]; [apply preserves_ret|].
    apply preserves_bind; [apply I_set|]. intros _. apply preserves_throw.
  - apply preserves_bind; [apply I_set|]. intros _. apply preserves_throw.
Qed.

End FetchInvariant.

Section WithUpstream.

Variable fetchTranscript :
  list (string * string) -> string -> string -> UpstreamResult.

Lemma fetch_callsExtend (P : string * string -> Prop) w0 videoId language :
  P (videoId, language) ->
  preserves (callsExtend P w0)
            (fetchTranscriptFromYouTube fetchTranscript videoId language).
Proof.
  intros HP w (new & Hc & HF). eapply wp_mono; [|apply fetch_post].
  intros c w' (_ & _ & n & Hc' & _).
  exists (repeat (videoId, language) (S n) ++ new). split.
  - rewrite Hc', Hc. now rewrite app_assoc.
  - apply Forall_app. split; [|exact HF].
    apply Forall_forall. intros x Hx. apply list_elem_of_In in Hx.
    now rewrite (repeat_spec _ _ _ Hx).
Qed.

Lemma set_callsExtend (P : string * string -> Prop) w0 env videoId language
      data isError :
  preserves (callsExtend P w0)
            (when (TRANSCRIPT_CACHE env)
               (Cache.setCachedTranscript env videoId language data isError)).
Proof.
  intros w Hw. unfold wp. rewrite when_setCachedTranscript_run.
  now destruct (TRANSCRIPT_CACHE env).
Qed.

Lemma callsExtend_refl (P : string * string -> Prop) w : callsExtend P w w.
Proof. now exists []. Qed.

(** The upstream calls of auto-detection: this video, candidates only. *)
Lemma getTranscriptWithAutoDetection_calls videoId env w :
  wp (getTranscriptWithAutoDetection fetchTranscript videoId env)
     (fun _ w' =>
        callsExtend (fun call => fst call = videoId
                                 /\ In (snd call) languagesToTry) w w') w.
Proof.
  apply getTranscriptWithAutoDetection_keeps
    with (okLang := fun l => In l languagesToTry).
  - intros l Hl. now apply fetch_callsExtend.
  - intros l d e. apply set_callsExtend.
  - auto.
  - apply callsExtend_refl.
Qed.

(** The upstream calls of the exact-language mode: this video, the
    requested language or English. *)
Lemma getTranscriptWithFallback_calls videoId env language w :
  wp (getTranscriptWithFallback fetchTranscript videoId env language)
     (fun _ w' =>
        callsExtend (fun call => fst call = videoId
                                 /\ (snd call = language \/ snd call = "en"))
                    w w') w.
Proof.
  apply getTranscriptWithFallback_keeps
    with (okLang := fun l => l = language \/ l = "en").
  - intros l Hl. now apply fetch_callsExtend.
  - intros l d e. apply set_callsExtend.
  - now left.
  - now right.
  - apply callsExtend_refl.
Qed.

(** Counting upstream calls. *)
Lemma callsWithin_ret {A} (a : A) : callsWithin 0 (ret a).
Proof. intros w. unfold wp, ret. lia. Qed.

Lemma callsWithin_throw {A} e : callsWithin 0 (@throw A e).
Proof. intros w. unfold wp, throw. lia. Qed.

Lemma callsWithin_weaken {A} n n' (m : M A) :
  (n <= n')%nat -> callsWithin n m -> callsWithin n' m.
Proof.
  intros Hle Hm w. eapply wp_mono; [|apply Hm]. intros c w' H. cbn in H. lia.
Qed.

Lemma callsWithin_bind {A B} n k (m : M A) (f : A -> M B) :
  callsWithin n m -> (forall a, callsWithin k (f a)) ->
  callsWithin (n + k) (bind m f).
Proof.
  intros Hm Hf w. apply wp_bind. eapply wp_mono; [|apply Hm].
  intros [a|e] w' Hle; cbn in Hle; [|lia].
  eapply wp_mono; [|apply Hf]. intros c w'' Hle'. cbn in Hle'. lia.
Qed.

Lemma callsWithin_attempt {A} n (m : M A) :
  callsWithin n m -> callsWithin n (attempt m).
Proof. intros Hm w. apply wp_attempt. apply Hm. Qed.

Lemma callsWithin_get env videoId language :
  callsWithin 0 (Cache.getCachedTranscript env videoId language).
Proof. intros w. unfold wp. rewrite getCachedTranscript_run. lia. Qed.

Lemma callsWithin_set env videoId language data isError :
  callsWithin 0 (when (TRANSCRIPT_CACHE env)
                   (Cache.setCachedTranscript env videoId language data
                      isError)).
Proof.
  intros w. unfold wp. rewrite when_setCachedTranscript_run.
  destruct (TRANSCRIPT_CACHE env); cbn; lia.
Qed.

Lemma callsWithin_fetch videoId language :
  callsWithin 3 (fetchTranscriptFromYouTube fetchTranscript videoId language).
Proof.
  intros w. eapply wp_mono; [|apply fetch_post].
  intros c w' (_ & _ & n & Hc & Hle & _). rewrite Hc, length_app, repeat_length.
  unfold MAX_RETRIES in Hle. lia.
Qed.

Lemma callsWithin_fetchAndCache env videoId language (k : string -> string) :
  callsWithin 3
    (let* transcript :=
       fetchTranscriptFromYouTube fetchTranscript videoId language in
     run* when (TRANSCRIPT_CACHE env)
            (Cache.setCachedTranscript env videoId language transcript
               false) in
     ret (k transcript)).
Proof.
  apply (callsWithin_bind 3 0); [apply callsWithin_fetch|]. intros t.
  apply (callsWithin_bind 0 0); [apply callsWithin_set|]. intros _.
  apply callsWithin_ret.
Qed.

Lemma callsWithin_tryLanguage videoId env lang :
  callsWithin 3 (tryLanguage fetchTranscript videoId env lang).
Proof.
  unfold tryLanguage.
  apply (callsWithin_bind 0 3); [apply callsWithin_get|]. intros cached.
  destruct (isCachedTranscript cached).
  - eapply callsWithin_weaken; [|apply callsWithin_ret]. lia.
  - exact (callsWithin_fetchAndCache env videoId lang (autoDetectedNote lang)).
Qed.

Lemma callsWithin_autoDetectionLoop videoId env langs :
  forall lastError availableLanguages,
    callsWithin (3 * length langs)
      (autoDetectionLoop fetchTranscript videoId env langs lastError
         availableLanguages).
Proof.
  induction langs as [|lang rest IH]; intros lastError avail;
    cbn [autoDetectionLoop]; [apply callsWithin_ret|].
  eapply callsWithin_weaken;
    [|apply (callsWithin_bind 3 (3 * length rest))].
  - cbn [length]. lia.
  - apply callsWithin_attempt, callsWithin_tryLanguage.
  - intros [result|error].
    + eapply callsWithin_weaken; [|apply callsWithin_ret]. lia.
    + destruct (isLanguageRelatedError error); cbn [negb]; [apply IH|].
      eapply callsWithin_weaken; [|apply callsWithin_ret]. lia.
Qed.

Lemma callsWithin_autoDetection videoId env :
  callsWithin 36 (getTranscriptWithAutoDetection fetchTranscript videoId env).
Proof.
  unfold getTranscriptWithAutoDetection.
  apply (callsWithin_bind 36 0);
    [exact (callsWithin_autoDetectionLoop videoId env languagesToTry None [])|].
  intros [result|[lastError avail]];
    [apply callsWithin_ret | apply callsWithin_throw].
Qed.

Lemma callsWithin_fallback videoId env requestedLanguage :
  callsWithin 6
    (getTranscriptWithFallback fetchTranscript videoId env requestedLanguage).
Proof.
  unfold getTranscriptWithFallback.
  apply (callsWithin_bind 3 3).
  - apply callsWithin_attempt. unfold tryRequested. cbv zeta.
    apply (callsWithin_bind 0 3); [apply callsWithin_get|].
    pose proof (callsWithin_fetchAndCache env videoId requestedLanguage
                  (fun t => t)) as Hfetch.
    intros [d|]; [|exact Hfetch].
    destruct (Js.truthy d); [|exact Hfetch].
    destruct (Cache.isStoredError d);
      (eapply callsWithin_weaken;
       [|first [apply callsWithin_throw | apply callsWithin_ret]]); lia.
  - intros [result|error].
    { eapply callsWithin_weaken; [|apply callsWithin_ret]. lia. }
    unfold catchRequested.
    assert (Hcache : forall e' : JsError,
               callsWithin 0
                 (run* when (TRANSCRIPT_CACHE env)
                         (let errorMessage :=
                            handleYouTubeErrors (Some error) in
                          Cache.setCachedTranscript env videoId
                            requestedLanguage ("Error: " +:+ errorMessage)
                            true) in
                  @throw string e')).
    { intros e'. apply (callsWithin_bind 0 0); [apply callsWithin_set|].
      intros _. apply callsWithin_throw. }
    destruct (isLanguageRelatedError error
              && negb (String.eqb requestedLanguage "en")).
    + apply (callsWithin_bind 3 0).
      * apply callsWithin_attempt. unfold tryEnglish.
        apply (callsWithin_bind 0 3); [apply callsWithin_get|].
        intros cached. destruct (isCachedTranscript cached).
        -- eapply callsWithin_weaken; [|apply callsWithin_ret]. lia.
        -- exact (callsWithin_fetchAndCache env videoId "en"
                    (fallbackNote requestedLanguage)).
      * intros [result|englishError]; [apply callsWithin_ret|apply Hcache].
    + eapply callsWithin_weaken; [|apply Hcache]. lia.
Qed.

Section WithParser.

Variable Url : string -> Completion UrlNormalize.ParsedUrl.

(** X10.  Every upstream call of a request is for the video id extracted
    from the normalized URL and for a language other than [auto]: in
    auto-detect mode a candidate of the list, otherwise the requested
    language or [en]. *)
Theorem getTranscript_upstream_languages url env language w :
  exists c w' new,
    Transcript.getTranscript Url fetchTranscript url env language w
    = Some (c, w')
    /\ upstreamCalls w' = new ++ upstreamCalls w
    /\ Forall (fun call =>
                 UrlNormalize.extractVideoId Url
                   (UrlNormalize.normalizeYouTubeUrl Url url)
                 = Some (fst call)
                 /\ snd call <> "auto"
                 /\ if String.eqb language "auto"
                    then In (snd call) languagesToTry
                    else snd call = language \/ snd call = "en") new.
Proof.
  assert (Hnone : forall c : Completion string,
             exists (c' : Completion string) w' new,
               Some (c, w) = Some (c', w')
               /\ upstreamCalls w' = new ++ upstreamCalls w
               /\ Forall (fun call =>
                            UrlNormalize.extractVideoId Url
                              (UrlNormalize.normalizeYouTubeUrl Url url)
                            = Some (fst call)
                            /\ snd call <> "auto"
                            /\ if String.eqb language "auto"
                               then In (snd call) languagesToTry
                               else snd call = language \/ snd call = "en")
                         new).
  { intros c. exists c, w, []. repeat split. constructor. }
  unfold Transcript.getTranscript.
  destruct (UrlNormalize.isValidYouTubeUrl Url url) as [[|]|e];
    [|apply Hnone|apply Hnone].
  destruct (UrlNormalize.extractVideoId Url
              (UrlNormalize.normalizeYouTubeUrl Url url)) as [videoId|];
    [|apply Hnone].
  destruct (Js.truthy videoId); cbn [negb]; [|apply Hnone].
  destruct (String.eqb_spec language "auto") as [Hauto|Hauto].
  - destruct (wp_elim _ _ _
                (getTranscriptWithAutoDetection_calls videoId env w))
      as (c & w' & Hrun & new & Hc & HF).
    exists c, w', new. split; [exact Hrun|]. split; [exact Hc|].
    eapply Forall_impl; [exact HF|]. intros [v l] [Hv Hl]. cbn in *.
    subst v. split; [reflexivity|].
    split; [now apply candidates_not_auto | exact Hl].
  - destruct (wp_elim _ _ _
                (getTranscriptWithFallback_calls videoId env language w))
      as (c & w' & Hrun & new & Hc & HF).
    exists c, w', new. split; [exact Hrun|]. split; [exact Hc|].
    eapply Forall_impl; [exact HF|]. intros [v l] [Hv Hl]. cbn in *.
    subst v. split; [reflexivity|]. split; [|exact Hl].
    destruct Hl as [->| ->]; [exact Hauto | discriminate].
Qed.

(** X11.  A request makes at most 36 upstream calls in auto-detect mode
    (twelve candidates, three attempts each) and at most 6 in exact-language
    mode (the requested language and the English fallback). *)
Theorem getTranscript_upstream_calls_bounded url env language w :
  exists c w',
    Transcript.getTranscript Url fetchTranscript url env language w
    = Some (c, w')
    /\ (length (upstreamCalls w')
        <= length (upstreamCalls w)
           + if String.eqb language "auto" then 36 else 6)%nat.
Proof.
  assert (Hnone : forall c : Completion string,
             exists (c' : Completion string) w',
               Some (c, w) = Some (c', w')
               /\ (length (upstreamCalls w')
                   <= length (upstreamCalls w)
                      + if String.eqb language "auto" then 36 else 6)%nat).
  { intros c. exists c, w. split; [reflexivity|lia]. }
  unfold Transcript.getTranscript.
  destruct (UrlNormalize.isValidYouTubeUrl Url url) as [[|]|e];
    [|apply Hnone|apply Hnone].
  destruct (UrlNormalize.extractVideoId Url
              (UrlNormalize.normalizeYouTubeUrl Url url)) as [videoId|];
    [|apply Hnone].
  destruct (Js.truthy videoId); cbn [negb]; [|apply Hnone].
  destruct (String.eqb language "auto").
  - destruct (wp_elim _ _ _ (callsWithin_autoDetection videoId env w))
      as (c & w' & Hrun & Hle). now exists c, w'.
  - destruct (wp_elim _ _ _ (callsWithin_fallback videoId env language w))
      as (c & w' & Hrun & Hle). now exists c, w'.
Qed.

End WithParser.

End WithUpstream.

End LoadFacts.

(* ===================================================================== *)
(** * Resolution strategy: outcomes of the two modes *)
(* ===================================================================== *)

Module OutcomeFacts.

Import Runtime Logic RuntimeFacts Youtube Transcript TranscriptFacts.

Section WithUpstream.

Variable fetchTranscript :
  list (string * string) -> string -> string -> UpstreamResult.

Local Abbreviation fetch := (fetchTranscriptFromYouTube fetchTranscript).
Local Abbreviation withFallback :=
  (getTranscriptWithFallback fetchTranscript).
Local Abbreviation autoDetection :=
  (getTranscriptWithAutoDetection fetchTranscript).

Lemma isCachedTranscript_true (t : string) :
  isCachedTranscript (Some t) = true ->
  Js.truthy t = true /\ Cache.isStoredError t = false.
Proof.
  unfold isCachedTranscript. intros H. apply andb_true_iff in H.
  destruct H as [Ht Hs]. split; [exact Ht|]. now apply negb_true_iff.
Qed.

(** The outer [try] block on a cached transcript. *)
Lemma tryRequested_hit videoId env language w t :
  cachedValue env w videoId language = Some t ->
  isCachedTranscript (Some t) = true ->
  tryRequested fetchTranscript videoId env language w = Some (Return t, w).
Proof.
  intros Hc Ht. destruct (isCachedTranscript_true t Ht) as [Htr Hse].
  unfold tryRequested. cbv zeta. unfold bind at 1.
  rewrite getCachedTranscript_run, Hc, Htr, Hse. reflexivity.
Qed.

(** The outer [try] block on a stored error. *)
Lemma tryRequested_stored_error videoId env language w d :
  cachedValue env w videoId language = Some d ->
  Js.truthy d = true ->
  Cache.isStoredError d = true ->
  tryRequested fetchTranscript videoId env language w
  = Some (Throw (mkError PlainError d), w).
Proof.
  intros Hc Htr Hse. unfold tryRequested. cbv zeta. unfold bind at 1.
  rewrite getCachedTranscript_run, Hc, Htr, Hse. reflexivity.
Qed.

(** The inner [try] block when English is not cached as a transcript. *)
Lemma tryEnglish_fetches videoId env requestedLanguage w :
  isCachedTranscript (cachedValue env w videoId "en") = false ->
  tryEnglish fetchTranscript videoId env requestedLanguage w
  = (let* englishTranscript := fetch videoId "en" in
     run* when (TRANSCRIPT_CACHE env)
            (Cache.setCachedTranscript env videoId "en" englishTranscript
               false) in
     ret (fallbackNote requestedLanguage englishTranscript)) w.
Proof.
  intros Hen. unfold tryEnglish. unfold bind at 1.
  rewrite getCachedTranscript_run, Hen. reflexivity.
Qed.

(** One round of the auto-detection loop when the candidate is not cached
    as a transcript. *)
Lemma tryLanguage_fetches videoId env lang w :
  isCachedTranscript (cachedValue env w videoId lang) = false ->
  tryLanguage fetchTranscript videoId env lang w
  = (let* transcript := fetch videoId lang in
     run* when (TRANSCRIPT_CACHE env)
            (Cache.setCachedTranscript env videoId lang transcript false) in
     ret (autoDetectedNote lang transcript)) w.
Proof.
  intros Hc. unfold tryLanguage. unfold bind at 1.
  rewrite getCachedTranscript_run, Hc. reflexivity.
Qed.

(** X12.  Exact-language mode, cache bound: after a request that missed the
    cache and fetched a transcript (non-empty, not beginning with [Error:]),
    the same request again returns the same transcript from the cache,
    without any upstream call and without any put. *)
Theorem exact_mode_repeat_served_from_cache videoId env language w t w1 :
  TRANSCRIPT_CACHE env = true ->
  isMiss (cachedValue env w videoId language) = true ->
  fetch videoId language w = Some (Return t, w1) ->
  isCachedTranscript (Some t) = true ->
  exists w2,
    withFallback videoId env language w = Some (Return t, w2)
    /\ upstreamCalls w2 = upstreamCalls w1
    /\ puts w2
       = mkPut (Cache.getTranscriptCacheKey videoId language) t
               Cache.SUCCESSFUL_TRANSCRIPT_TTL_SECONDS :: puts w1
    /\ withFallback videoId env language w2 = Some (Return t, w2).
Proof.
  intros Hb Hmiss Hrun Ht.
  exists (written videoId language t
            Cache.SUCCESSFUL_TRANSCRIPT_TTL_SECONDS w1).
  split; [|split; [reflexivity|split; [reflexivity|]]].
  - unfold Transcript.getTranscriptWithFallback. unfold bind at 1.
    unfold attempt at 1. rewrite tryRequested_miss by exact Hmiss.
    unfold bind at 1. rewrite Hrun.
    unfold bind at 1. rewrite when_setCachedTranscript_run, Hb. reflexivity.
  - unfold Transcript.getTranscriptWithFallback. unfold bind at 1.
    unfold attempt at 1. rewrite tryRequested_hit with (t := t);
      [reflexivity| |exact Ht].
    unfold cachedValue, written. rewrite Hb. cbn [store].
    now rewrite lookup_insert_eq.
Qed.

(** X13.  Exact-language mode: when the requested language misses the cache
    and its fetch throws an error that is not language-related, or English
    itself was requested, no fallback is tried; the classified message is
    thrown as a plain [Error] and, with the cache bound, stored under the
    requested language as [Error: ] plus that message with the error TTL. *)
Theorem exact_mode_failure_cached_and_raised
        videoId env requestedLanguage w e w1 :
  isMiss (cachedValue env w videoId requestedLanguage) = true ->
  fetch videoId requestedLanguage w = Some (Throw e, w1) ->
  isLanguageRelatedError e && negb (String.eqb requestedLanguage "en")
  = false ->
  withFallback videoId env requestedLanguage w
  = Some (Throw (mkError PlainError (handleYouTubeErrors (Some e))),
          if TRANSCRIPT_CACHE env
          then written videoId requestedLanguage
                 ("Error: " +:+ handleYouTubeErrors (Some e))
                 Cache.ERROR_RESPONSE_TTL_SECONDS w1
          else w1).
Proof.
  intros Hmiss Hrun Hno.
  unfold Transcript.getTranscriptWithFallback. unfold bind at 1.
  unfold attempt at 1. rewrite tryRequested_miss by exact Hmiss.
  unfold bind at 1. rewrite Hrun.
  unfold catchRequested. rewrite Hno.
  unfold bind at 1. cbv zeta. rewrite when_setCachedTranscript_run.
  reflexivity.
Qed.

(** X14.  Exact-language mode: a stored error for the requested language
    that is not language-related, or any stored error when English was
    requested, is answered without any upstream call; the request throws the
    message classified again and writes the entry anew, with a fresh error
    TTL. *)
Theorem exact_mode_stored_error_shields_upstream
        videoId env requestedLanguage w d :
  cachedValue env w videoId requestedLanguage = Some d ->
  Js.truthy d = true ->
  Cache.isStoredError d = true ->
  isLanguageRelatedError (mkError PlainError d)
  && negb (String.eqb requestedLanguage "en") = false ->
  let m := handleYouTubeErrors (Some (mkError PlainError d)) in
  withFallback videoId env requestedLanguage w
  = Some (Throw (mkError PlainError m),
          written videoId requestedLanguage ("Error: " +:+ m)
            Cache.ERROR_RESPONSE_TTL_SECONDS w)
  /\ upstreamCalls
       (written videoId requestedLanguage ("Error: " +:+ m)
          Cache.ERROR_RESPONSE_TTL_SECONDS w)
     = upstreamCalls w.
Proof.
  intros Hc Htr Hse Hno m. split; [|reflexivity].
  assert (Hb : TRANSCRIPT_CACHE env = true).
  { unfold cachedValue in Hc. destruct (TRANSCRIPT_CACHE env);
      [reflexivity|discriminate Hc]. }
  unfold Transcript.getTranscriptWithFallback. unfold bind at 1.
  unfold attempt at 1.
  rewrite tryRequested_stored_error with (d := d); [|exact Hc|exact Htr|exact Hse].
  unfold catchRequested. rewrite Hno.
  unfold bind at 1. cbv zeta. rewrite when_setCachedTranscript_run, Hb.
  reflexivity.
Qed.

(** X15.  Exact-language mode: when the requested language (not English)
    misses the cache and fails language-related, and the English fallback is
    fetched and fails too, the request throws one error that names the
    requested language and carries the classified English failure; with the
    cache bound, the classified failure of the requested language is stored
    under the requested language and nothing is stored under [en]. *)
Theorem exact_mode_both_fail videoId env requestedLanguage w e w1 e2 w2 :
  requestedLanguage <> "en" ->
  isMiss (cachedValue env w videoId requestedLanguage) = true ->
  fetch videoId requestedLanguage w = Some (Throw e, w1) ->
  isLanguageRelatedError e = true ->
  isCachedTranscript (cachedValue env w1 videoId "en") = false ->
  fetch videoId "en" w1 = Some (Throw e2, w2) ->
  withFallback videoId env requestedLanguage w
  = Some (Throw (mkError PlainError
            ("Transcript not available in '" +:+ requestedLanguage
             +:+ "' and English fallback failed: "
             +:+ handleYouTubeErrors (Some e2))),
          if TRANSCRIPT_CACHE env
          then written videoId requestedLanguage
                 ("Error: " +:+ handleYouTubeErrors (Some e))
                 Cache.ERROR_RESPONSE_TTL_SECONDS w2
          else w2).
Proof.
  intros Hne Hmiss Hreq Hlang Hen Henglish.
  unfold Transcript.getTranscriptWithFallback. unfold bind at 1.
  unfold attempt at 1. rewrite tryRequested_miss by exact Hmiss.
  unfold bind at 1. rewrite Hreq.
  unfold catchRequested. rewrite Hlang.
  destruct (String.eqb_spec requestedLanguage "en") as [Heq|_];
    [contradiction|]. cbn [negb andb].
  unfold bind at 1. unfold attempt at 1.
  rewrite tryEnglish_fetches by exact Hen.
  unfold bind at 1. rewrite Henglish.
  unfold bind at 1. cbv zeta. rewrite when_setCachedTranscript_run.
  reflexivity.
Qed.

(** A fetch whose first answer is "no transcript". *)
Lemma fetch_no_transcript videoId language w msg :
  fetchTranscript (upstreamCalls w) videoId language = Failure msg ->
  classify msg = NoTranscriptShaped ->
  fetch videoId language w
  = Some (Throw (unavailableError videoId language), called videoId language w).
Proof.
  intros Hf Hk. unfold fetchTranscriptFromYouTube, Youtube.getTranscript.
  rewrite YoutubeFacts.retryLoop_Failure with (msg := msg);
    [|reflexivity|exact Hf].
  cbv zeta. rewrite Hk. reflexivity.
Qed.

Lemma unavailableError_languageRelated videoId language :
  isLanguageRelatedError (unavailableError videoId language) = true.
Proof.
  exact (RetryFacts.isLanguageRelatedError_prefix VideoUnavailableError
           "No transcript found for " _ eq_refl eq_refl).
Qed.

Lemma calledEach_cons videoId lang rest w :
  calledEach videoId rest (called videoId lang w)
  = calledEach videoId (lang :: rest) w.
Proof.
  unfold calledEach, called. cbn [store puts upstreamCalls timers rev].
  f_equal. rewrite map_app. cbn [map]. now rewrite <- app_assoc.
Qed.

(** The loop over candidates none of which is cached as a transcript, on a
    video for which the upstream always answers "no transcript". *)
Lemma autoDetectionLoop_exhausted videoId env msg :
  (forall history language,
      fetchTranscript history videoId language = Failure msg) ->
  classify msg = NoTranscriptShaped ->
  forall langs lastError avail w,
    (forall lang, In lang langs ->
                  isCachedTranscript (cachedValue env w videoId lang) = false) ->
    exists lastError',
      autoDetectionLoop fetchTranscript videoId env langs lastError avail w
      = Some (Return (inr (lastError',
                           avail ++ map (triedEntry videoId) langs)),
              calledEach videoId langs w).
Proof.
  intros Hup Hk. induction langs as [|lang rest IH];
    intros lastError avail w Hmiss.
  - exists lastError. cbn [autoDetectionLoop map]. rewrite app_nil_r.
    destruct w. reflexivity.
  - cbn [autoDetectionLoop]. unfold bind at 1. unfold attempt at 1.
    rewrite tryLanguage_fetches by (apply Hmiss; now left).
    unfold bind at 1.
    rewrite (fetch_no_transcript videoId lang w msg (Hup _ _) Hk).
    rewrite unavailableError_languageRelated. cbn [negb].
    destruct (IH (Some (unavailableError videoId lang))
                 (avail ++ [lang +:+ ": "
                            +:+ message (unavailableError videoId lang)])
                 (called videoId lang w)) as [lastError' Hrun].
    { intros l Hl. apply (Hmiss l). now right. }
    exists lastError'. rewrite Hrun, calledEach_cons.
    cbn [map]. now rewrite <- app_assoc.
Qed.

(** X16.  Auto-detect mode on a video without captions: when the upstream
    answers every call with a "no transcript" failure and no candidate is
    cached as a transcript, the twelve candidates are each tried once, in
    order, without any timer; the request throws the aggregate error that
    lists every candidate with its failure, and nothing is written to the
    cache. *)
Theorem autoDetection_exhausts_candidates videoId env msg w :
  (forall history language,
      fetchTranscript history videoId language = Failure msg) ->
  classify msg = NoTranscriptShaped ->
  (forall lang, In lang languagesToTry ->
                isCachedTranscript (cachedValue env w videoId lang) = false) ->
  autoDetection videoId env w
  = Some (Throw (mkError PlainError
            ("No transcript available in any tested language. Tried: "
             +:+ Js.join ", " (map (triedEntry videoId) languagesToTry))),
          calledEach videoId languagesToTry w).
Proof.
  intros Hup Hk Hmiss.
  destruct (autoDetectionLoop_exhausted videoId env msg Hup Hk
              languagesToTry None [] w Hmiss) as [lastError' Hrun].
  unfold Transcript.getTranscriptWithAutoDetection. unfold bind at 1.
  rewrite Hrun. reflexivity.
Qed.

(** X17.  Auto-detect mode, second candidate: when English is not cached
    and its fetch fails with a "no transcript" answer, and Spanish is not
    cached and its first answer has segments, the request returns the
    Spanish transcript under the note "Auto-detected language: es" after
    exactly two upstream calls, and with the cache bound stores it under
    [es] only. *)
Theorem autoDetection_second_candidate videoId env w msg raw :
  isCachedTranscript (cachedValue env w videoId "en") = false ->
  fetchTranscript (upstreamCalls w) videoId "en" = Failure msg ->
  classify msg = NoTranscriptShaped ->
  isCachedTranscript (cachedValue env w videoId "es") = false ->
  fetchTranscript ((videoId, "en") :: upstreamCalls w) videoId "es"
  = Segments raw ->
  let t := sanitizeTranscriptText (Js.join " " (map text raw)) in
  let w2 := called videoId "es" (called videoId "en" w) in
  autoDetection videoId env w
  = Some (Return (autoDetectedNote "es" t),
          if TRANSCRIPT_CACHE env
          then written videoId "es" t
                 Cache.SUCCESSFUL_TRANSCRIPT_TTL_SECONDS w2
          else w2).
Proof.
  intros Hen Hfen Hk Hes Hfes t w2.
  unfold Transcript.getTranscriptWithAutoDetection, languagesToTry.
  unfold bind at 1. cbn [autoDetectionLoop].
  unfold bind at 1. unfold attempt at 1.
  rewrite tryLanguage_fetches by exact Hen.
  unfold bind at 1. rewrite (fetch_no_transcript videoId "en" w msg Hfen Hk).
  rewrite unavailableError_languageRelated. cbn [negb].
  unfold bind at 1. unfold attempt at 1.
  rewrite tryLanguage_fetches by exact Hes.
  unfold bind at 1.
  unfold fetchTranscriptFromYouTube.
  rewrite YoutubeFacts.getTranscript_first_answer with (raw := raw)
    by exact Hfes.
  unfold bind at 1. rewrite when_setCachedTranscript_run. reflexivity.
Qed.

(** One round of the loop and the KV: unchanged unless it returns a freshly
    fetched transcript, which is then the only put. *)
Lemma tryLanguage_kv videoId env lang w :
  wp (tryLanguage fetchTranscript videoId env lang)
     (fun c w' =>
        match c with
        | Throw _ => kvSame w w'
        | Return _ =>
            kvSame w w'
            \/ exists t,
                 puts w' = mkPut (Cache.getTranscriptCacheKey videoId lang) t
                                 Cache.SUCCESSFUL_TRANSCRIPT_TTL_SECONDS
                           :: puts w
        end) w.
Proof.
  unfold tryLanguage. apply wp_bind. unfold wp at 1.
  rewrite getCachedTranscript_run.
  destruct (isCachedTranscript (cachedValue env w videoId lang)).
  { left. now split. }
  apply wp_bind. eapply wp_mono; [|apply fetch_post].
  intros [t|e] w' (Hs & Hp & _); [|now split].
  apply wp_bind. unfold wp at 1. rewrite when_setCachedTranscript_run.
  destruct (TRANSCRIPT_CACHE env).
  - right. exists t. cbn [written puts]. now rewrite Hp.
  - left. now split.
Qed.

Lemma autoDetectionLoop_kv videoId env w0 langs :
  (forall lang, In lang langs -> In lang languagesToTry) ->
  forall lastError avail w,
    kvSame w0 w ->
    wp (autoDetectionLoop fetchTranscript videoId env langs lastError avail)
       (fun c w' =>
          match c with
          | Return (inr _) => kvSame w0 w'
          | Return (inl _) =>
              kvSame w0 w'
              \/ exists lang t,
                   In lang languagesToTry
                   /\ puts w'
                      = mkPut (Cache.getTranscriptCacheKey videoId lang) t
                              Cache.SUCCESSFUL_TRANSCRIPT_TTL_SECONDS
                        :: puts w0
          | Throw _ => False
          end) w.
Proof.
  induction langs as [|lang rest IH]; intros Hsub lastError avail w Hw;
    cbn [autoDetectionLoop]; [exact Hw|].
  apply wp_bind, wp_attempt.
  eapply wp_mono; [|apply tryLanguage_kv].
  destruct Hw as [Hs Hp].
  intros [result|error] w' Hpost.
  - destruct Hpost as [[Hs' Hp']|[t Hput]].
    + left. split; congruence.
    + right. exists lang, t. split; [apply Hsub; now left|]. congruence.
  - destruct Hpost as [Hs' Hp'].
    assert (Hw' : kvSame w0 w') by (split; congruence).
    destruct (isLanguageRelatedError error); cbn [negb]; [|exact Hw'].
    apply IH; [|exact Hw']. intros l Hl. apply Hsub. now right.
Qed.

(** X18.  Auto-detect mode never stores a failure: when the request throws,
    the KV entries and the put log are as before; when it returns, at most
    one put was made, of a transcript with the success TTL under a candidate
    language. *)
Theorem autoDetection_caches_success_only videoId env w :
  exists c w',
    autoDetection videoId env w = Some (c, w')
    /\ match c with
       | Throw _ => store w' = store w /\ puts w' = puts w
       | Return _ =>
           puts w' = puts w
           \/ exists lang t,
                In lang languagesToTry
                /\ puts w'
                   = mkPut (Cache.getTranscriptCacheKey videoId lang) t
                           Cache.SUCCESSFUL_TRANSCRIPT_TTL_SECONDS
                     :: puts w
       end.
Proof.
  apply wp_elim. unfold Transcript.getTranscriptWithAutoDetection.
  apply wp_bind.
  eapply wp_mono;
    [|apply (autoDetectionLoop_kv videoId env w languagesToTry);
      [auto | now split]].
  intros [[result|[lastError avail]]|e] w' Hpost; [| |contradiction].
  - destruct Hpost as [[_ Hp]|Hput]; [now left | now right].
  - exact Hpost.
Qed.

Lemma fetch_kvSame w0 videoId language :
  preserves (kvSame w0) (fetch videoId language).
Proof.
  intros w [Hs Hp]. eapply wp_mono; [|apply fetch_post].
  intros c w' (Hs' & Hp' & _). split; congruence.
Qed.

(** The upstream calls of a whole request in exact-language mode. *)
Lemma exact_request_calls (Url : string -> Completion UrlNormalize.ParsedUrl)
      url env language w :
  language <> "auto" ->
  wp (Transcript.getTranscript Url fetchTranscript url env language)
     (fun _ w' =>
        callsExtend (fun call => snd call = language \/ snd call = "en")
                    w w') w.
Proof.
  intros Hne. unfold Transcript.getTranscript.
  pose proof (LoadFacts.callsExtend_refl
                (fun call : string * string =>
                   snd call = language \/ snd call = "en") w) as Hrefl.
  destruct (UrlNormalize.isValidYouTubeUrl Url url) as [[|]|e];
    [|exact Hrefl|exact Hrefl].
  destruct (UrlNormalize.extractVideoId Url
              (UrlNormalize.normalizeYouTubeUrl Url url)) as [videoId|];
    [|exact Hrefl].
  destruct (Js.truthy videoId); cbn [negb]; [|exact Hrefl].
  destruct (String.eqb_spec language "auto") as [Heq|_]; [contradiction|].
  eapply wp_mono;
    [|apply (LoadFacts.getTranscriptWithFallback_calls fetchTranscript
               videoId env language w)].
  intros c w' (new & Hc & HF). exists new. split; [exact Hc|].
  eapply Forall_impl; [exact HF|]. intros call [_ Hl]. exact Hl.
Qed.

Section WithParser.

Variable Url : string -> Completion UrlNormalize.ParsedUrl.

(** X19.  Without the [TRANSCRIPT_CACHE] binding a request still completes,
    and it leaves the KV as it was: no entry changes and no put is made,
    whatever the mode and the outcome. *)
Theorem unbound_cache_request_leaves_kv url env language w :
  TRANSCRIPT_CACHE env = false ->
  exists c w',
    Transcript.getTranscript Url fetchTranscript url env language w
    = Some (c, w')
    /\ store w' = store w /\ puts w' = puts w.
Proof.
  intros Hb. apply wp_elim. unfold Transcript.getTranscript.
  assert (Hset : forall videoId l d (e : bool),
             True ->
             preserves (kvSame w)
               (when (TRANSCRIPT_CACHE env)
                  (Cache.setCachedTranscript env videoId l d e))).
  { intros videoId l d e _ w1 Hw1. unfold wp.
    rewrite when_setCachedTranscript_run, Hb. exact Hw1. }
  assert (Hrefl : kvSame w w) by now split.
  destruct (UrlNormalize.isValidYouTubeUrl Url url) as [[|]|e];
    [|exact Hrefl|exact Hrefl].
  destruct (UrlNormalize.extractVideoId Url
              (UrlNormalize.normalizeYouTubeUrl Url url)) as [videoId|];
    [|exact Hrefl].
  destruct (Js.truthy videoId); cbn [negb]; [|exact Hrefl].
  destruct (String.eqb language "auto").
  - apply (getTranscriptWithAutoDetection_preserves fetchTranscript videoId
             env (kvSame w) (fun _ _ _ => True));
      [intros l; apply fetch_kvSame | apply Hset | auto | exact Hrefl].
  - apply (getTranscriptWithFallback_preserves fetchTranscript videoId
             env (kvSame w) (fun _ _ _ => True));
      [intros l; apply fetch_kvSame | apply Hset | auto | auto | auto
      | exact Hrefl].
Qed.

(** X20.  A request whose URL is empty, or parses to a hostname outside the
    allow-list, throws "Invalid YouTube URL provided." before any effect: no
    cache read or write, no upstream call, whatever its path, query and
    language. *)
Theorem off_list_url_rejected_without_effect url env language w :
  Js.truthy url = false
  \/ (exists parsedUrl,
         Url url = Return parsedUrl
         /\ UrlNormalize.hostnameAllowed parsedUrl = false) ->
  Transcript.getTranscript Url fetchTranscript url env language w
  = Some (Throw (mkError PlainError "Invalid YouTube URL provided."), w).
Proof.
  intros H. unfold Transcript.getTranscript, UrlNormalize.isValidYouTubeUrl.
  destruct H as [-> | (p & Hp & Hh)]; [reflexivity|].
  destruct (Js.truthy url); cbn [negb]; [|reflexivity].
  rewrite Hp, Hh. reflexivity.
Qed.

(** X21.  The [tools/call] handler never throws.  For [get_transcript] it
    answers with the transcript as text, or with error code -1 and the
    message of the error thrown by the resolution; when the [language]
    argument is absent the resolution runs in exact-language mode for [en],
    so every upstream call it makes asks for [en]. *)
Theorem handleToolsCall_get_transcript env url language w :
  exists c w',
    Transcript.getTranscript Url fetchTranscript url env
      (default "en" language) w = Some (c, w')
    /\ Index.handleToolsCall Url fetchTranscript env "get_transcript" url
         language w
       = Some (Return (match c with
                       | Return transcript => Index.ResultText transcript
                       | Throw error =>
                           Index.ErrorResponse (-1) (message error)
                       end), w')
    /\ (language = None ->
        exists new,
          upstreamCalls w' = new ++ upstreamCalls w
          /\ Forall (fun call => snd call = "en") new).
Proof.
  destruct (wp_elim _ _ _ (getTranscript_puts fetchTranscript Url url env
                             (default "en" language) w))
    as (c & w' & Hrun & _).
  exists c, w'. split; [exact Hrun|]. split.
  - unfold Index.handleToolsCall. cbn [String.eqb Ascii.eqb Bool.eqb].
    unfold bind at 1. unfold attempt at 1. rewrite Hrun.
    now destruct c.
  - intros ->. cbn [default] in Hrun.
    pose proof (exact_request_calls Url url env "en" w) as Hcalls.
    unfold wp in Hcalls. rewrite Hrun in Hcalls.
    destruct Hcalls as (new & Hc & HF); [discriminate|].
    exists new. split; [exact Hc|].
    eapply Forall_impl; [exact HF|]. now intros call [H|H].
Qed.

(** A [tools/call] for any other tool name is answered with error
    code -32601 and the text "Unknown tool: " followed by the name, without
    touching the world. *)
Theorem handleToolsCall_unknown_tool env name url language w :
  name <> "get_transcript" ->
  Index.handleToolsCall Url fetchTranscript env name url language w
  = Some (Return (Index.ErrorResponse (-32601) ("Unknown tool: " +:+ name)),
          w).
Proof.
  intros Hne. unfold Index.handleToolsCall.
  destruct (String.eqb_spec name "get_transcript") as [Heq|_];
    [contradiction|reflexivity].
Qed.

End WithParser.

End WithUpstream.

Import Scenarios.

Lemma exact_mode_repeat_served_from_cache_witness :
  exists w2,
    getTranscriptWithFallback onlyEnglish vid bound "en" emptyWorld
    = Some (Return "hello world", w2)
    /\ upstreamCalls w2 = [(vid, "en")]
    /\ puts w2
       = [mkPut (Cache.getTranscriptCacheKey vid "en") "hello world"
                Cache.SUCCESSFUL_TRANSCRIPT_TTL_SECONDS]
    /\ getTranscriptWithFallback onlyEnglish vid bound "en" w2
       = Some (Return "hello world", w2).
Proof.
  exact (exact_mode_repeat_served_from_cache onlyEnglish vid bound "en"
           emptyWorld "hello world" (called vid "en" emptyWorld)
           eq_refl eq_refl eq_refl eq_refl).
Defined.

Lemma exact_mode_failure_cached_and_raised_witness :
  getTranscriptWithFallback captionless vid bound "en" emptyWorld
  = Some (Throw (mkError PlainError "No transcript available for this video."),
          written vid "en" "Error: No transcript available for this video."
            Cache.ERROR_RESPONSE_TTL_SECONDS (called vid "en" emptyWorld)).
Proof.
  exact (exact_mode_failure_cached_and_raised captionless vid bound "en"
           emptyWorld (unavailableError vid "en") (called vid "en" emptyWorld)
           eq_refl eq_refl eq_refl).
Defined.

Lemma exact_mode_stored_error_shields_upstream_witness :
  getTranscriptWithFallback onlyEnglish vid bound "tr"
    (withStoredError
       "Error: Service temporarily busy, try again in a few minutes.")
  = Some (Throw (mkError PlainError
            "An unexpected error occurred while fetching the transcript."),
          written vid "tr"
            "Error: An unexpected error occurred while fetching the transcript."
            Cache.ERROR_RESPONSE_TTL_SECONDS
            (withStoredError
               "Error: Service temporarily busy, try again in a few minutes."))
  /\ upstreamCalls
       (written vid "tr"
          "Error: An unexpected error occurred while fetching the transcript."
          Cache.ERROR_RESPONSE_TTL_SECONDS
          (withStoredError
             "Error: Service temporarily busy, try again in a few minutes."))
     = [].
Proof.
  apply (exact_mode_stored_error_shields_upstream onlyEnglish vid bound "tr"
           (withStoredError
              "Error: Service temporarily busy, try again in a few minutes.")
           "Error: Service temporarily busy, try again in a few minutes.");
    vm_compute; reflexivity.
Defined.

Lemma exact_mode_both_fail_witness :
  getTranscriptWithFallback captionless vid bound "tr" emptyWorld
  = Some (Throw (mkError PlainError
            ("Transcript not available in 'tr' and English fallback failed: "
             +:+ "No transcript available for this video.")),
          written vid "tr" "Error: No transcript available for this video."
            Cache.ERROR_RESPONSE_TTL_SECONDS
            (called vid "en" (called vid "tr" emptyWorld))).
Proof.
  apply (exact_mode_both_fail captionless vid bound "tr" emptyWorld
           (unavailableError vid "tr") (called vid "tr" emptyWorld)
           (unavailableError vid "en")
           (called vid "en" (called vid "tr" emptyWorld)));
    first [ discriminate | reflexivity ].
Defined.

Lemma autoDetection_exhausts_candidates_witness :
  getTranscriptWithAutoDetection captionless vid bound emptyWorld
  = Some (Throw (mkError PlainError
            ("No transcript available in any tested language. Tried: "
             +:+ Js.join ", " (map (triedEntry vid) languagesToTry))),
          calledEach vid languagesToTry emptyWorld).
Proof.
  apply (autoDetection_exhausts_candidates captionless vid bound
           "No transcript found for this video" emptyWorld).
  - reflexivity.
  - reflexivity.
  - intros lang Hin. unfold languagesToTry in Hin. cbn [In] in Hin.
    repeat (destruct Hin as [<-|Hin]; [reflexivity|]). contradiction.
Defined.

Lemma autoDetection_second_candidate_witness :
  getTranscriptWithAutoDetection onlySpanish vid bound emptyWorld
  = Some (Return (autoDetectedNote "es" "hola mundo"),
          written vid "es" "hola mundo"
            Cache.SUCCESSFUL_TRANSCRIPT_TTL_SECONDS
            (called vid "es" (called vid "en" emptyWorld))).
Proof.
  exact (autoDetection_second_candidate onlySpanish vid bound emptyWorld
           "No transcript found for this video"
           [item "hola"; item "mundo"]
           eq_refl eq_refl eq_refl eq_refl eq_refl).
Defined.

Lemma unbound_cache_request_leaves_kv_witness :
  exists c w',
    Transcript.getTranscript UrlParse.parse onlyEnglish
      ("https://youtu.be/" +:+ vid) unbound "tr" emptyWorld = Some (c, w')
    /\ store w' = ∅ /\ puts w' = [].
Proof.
  exact (unbound_cache_request_leaves_kv onlyEnglish UrlParse.parse
           ("https://youtu.be/" +:+ vid) unbound "tr" emptyWorld eq_refl).
Defined.

Lemma off_list_url_rejected_without_effect_witness :
  Transcript.getTranscript UrlParse.parse onlyEnglish offListUrl bound "auto"
    emptyWorld
  = Some (Throw (mkError PlainError "Invalid YouTube URL provided."),
          emptyWorld).
Proof.
  apply (off_list_url_rejected_without_effect onlyEnglish UrlParse.parse
           offListUrl bound "auto" emptyWorld).
  right. eexists. split; vm_compute; reflexivity.
Defined.

Lemma handleToolsCall_get_transcript_witness :
  exists w',
    Index.handleToolsCall UrlParse.parse onlySpanish bound "get_transcript"
      ("https://youtu.be/" +:+ vid) None emptyWorld
    = Some (Return (Index.ErrorResponse (-1)
                      "No transcript available for this video."), w')
    /\ exists new,
         upstreamCalls w' = new ++ []
         /\ Forall (fun call => snd call = "en") new.
Proof.
  destruct (handleToolsCall_get_transcript onlySpanish UrlParse.parse bound
              ("https://youtu.be/" +:+ vid) None emptyWorld)
    as (c & w' & Hrun & Hhandle & Hcalls).
  exists w'. split; [|exact (Hcalls eq_refl)].
  rewrite Hhandle. vm_compute in Hrun. injection Hrun as <- _. reflexivity.
Defined.

(** The bound of 36 upstream calls is reached: an upstream that fails every
    call with a message of no known shape is asked three times for each of
    the twelve candidates, with 36 seconds of backoff in all. *)
Example autoDetection_36_calls :
  exists e w',
    getTranscriptWithAutoDetection alwaysBoom vid bound emptyWorld
    = Some (Throw e, w')
    /\ length (upstreamCalls w') = 36%nat
    /\ totalDelay (timers w') = 36000
    /\ puts w' = [].
Proof.
  do 2 eexists. split; [vm_compute; reflexivity|].
  repeat split; vm_compute; reflexivity.
Qed.

End OutcomeFacts.

(* ===================================================================== *)
(** * URL resolver: extraction and cleaning *)
(* ===================================================================== *)

Module UrlShapeFacts.

Import UrlNormalize.

Lemma orNull_truthy (o : option string) (id : string) :
  Js.orNull o = Some id -> Js.truthy id = true.
Proof.
  destruct o as [s|]; [|discriminate]. cbn [Js.orNull].
  destruct (Js.truthy s) eqn:Hs; [|discriminate].
  intros H. now injection H as <-.
Qed.

Lemma firstValue_truthy (q : option QueryValue) (id : string) :
  (forall l, q <> Some (QArray l)) ->
  queryTruthy q = true ->
  firstValue q = Some id -> Js.truthy id = true.
Proof.
  intros Hno Ht Hf. destruct q as [[s|l]|]; [| |discriminate Hf].
  - cbn in Ht, Hf. now injection Hf as <-.
  - now contradiction (Hno l).
Qed.

(** X23.  When [query.v] is not an array (url-parse never produces one), an
    extracted identifier is never the empty string. *)
Theorem extractVideoIdFromParsedUrl_nonempty (parsedUrl : ParsedUrl) id :
  (forall l, query parsedUrl !! "v" <> Some (QArray l)) ->
  extractVideoIdFromParsedUrl parsedUrl = Some id ->
  Js.truthy id = true.
Proof.
  intros Hno. unfold extractVideoIdFromParsedUrl. cbv zeta.
  destruct (String.eqb (hostname parsedUrl) "youtu.be");
    [apply orNull_truthy|].
  destruct (Js.startsWith (pathname parsedUrl) "/watch"
            && queryTruthy (query parsedUrl !! "v")) eqn:Hw.
  { apply andb_true_iff in Hw. destruct Hw as [_ Hq].
    now apply firstValue_truthy. }
  destruct (Js.startsWith (pathname parsedUrl) "/live/");
    [apply orNull_truthy|].
  destruct (Js.startsWith (pathname parsedUrl) "/embed/");
    [apply orNull_truthy|].
  destruct (Js.startsWith (pathname parsedUrl) "/shorts/");
    [apply orNull_truthy|].
  destruct (queryTruthy (query parsedUrl !! "v")
            && (String.eqb (pathname parsedUrl) "/"
                || String.eqb (pathname parsedUrl) "")) eqn:Hr;
    [|discriminate].
  apply andb_true_iff in Hr. destruct Hr as [Hq _].
  now apply firstValue_truthy.
Qed.

Lemma extractVideoIdFromParsedUrl_nonempty_witness :
  Js.truthy "abc" = true.
Proof.
  apply (extractVideoIdFromParsedUrl_nonempty
           (mkUrl "https:" "vimeo.com" "/watch" {[ "v" := QString "abc" ]})
           "abc").
  - intros l H. vm_compute in H. discriminate H.
  - vm_compute. reflexivity.
Defined.

(** X24.  A short link written with [www.] passes the hostname test (the
    prefix is stripped there) but is not read as a short link: extraction
    compares the unstripped hostname, so the URL is read with the rules of
    youtube.com and its first path segment is not taken as the id. *)
Theorem www_short_link_read_as_youtube (parsedUrl : ParsedUrl) :
  hostname parsedUrl = "www.youtu.be" ->
  hostnameAllowed parsedUrl = true
  /\ extractVideoIdFromParsedUrl parsedUrl
     = extractVideoIdFromParsedUrl
         (mkUrl (protocol parsedUrl) "www.youtube.com" (pathname parsedUrl)
                (query parsedUrl)).
Proof.
  intros Hh. unfold hostnameAllowed, extractVideoIdFromParsedUrl.
  cbn [hostname pathname query]. rewrite Hh. split; reflexivity.
Qed.

Lemma www_short_link_read_as_youtube_witness :
  hostnameAllowed (mkUrl "https:" "www.youtu.be" "/dQw4w9WgXcQ" ∅) = true
  /\ extractVideoIdFromParsedUrl
       (mkUrl "https:" "www.youtu.be" "/dQw4w9WgXcQ" ∅)
     = extractVideoIdFromParsedUrl
         (mkUrl "https:" "www.youtube.com" "/dQw4w9WgXcQ" ∅).
Proof.
  exact (www_short_link_read_as_youtube
           (mkUrl "https:" "www.youtu.be" "/dQw4w9WgXcQ" ∅) eq_refl).
Defined.

Section WithParser.

Variable Url : string -> Completion ParsedUrl.
Variable toString : ParsedUrl -> string.

(** X25.  On a URL with an extractable identifier, [cleanTrackingParams]
    agrees with [normalizeYouTubeUrl] for short links and for [/live/],
    [/embed/] and [/shorts/] paths.  For a [/watch] path it keeps the
    protocol of the input, so the two agree exactly when the protocol is
    [https:]; an empty protocol gives the prefix [https//], without the
    colon. *)
Theorem cleanTrackingParams_vs_normalize url parsedUrl id :
  Js.truthy url = true ->
  Url url = Return parsedUrl ->
  extractVideoIdFromParsedUrl parsedUrl = Some id ->
  Js.truthy id = true ->
  normalizeYouTubeUrl Url url = canonicalWatchUrl id
  /\ (String.eqb (hostname parsedUrl) "youtu.be"
      || Js.startsWith (pathname parsedUrl) "/live/"
      || Js.startsWith (pathname parsedUrl) "/embed/"
      || Js.startsWith (pathname parsedUrl) "/shorts/" = true ->
      cleanTrackingParams Url toString url = canonicalWatchUrl id)
  /\ (String.eqb (hostname parsedUrl) "youtu.be"
      || Js.startsWith (pathname parsedUrl) "/live/"
      || Js.startsWith (pathname parsedUrl) "/embed/"
      || Js.startsWith (pathname parsedUrl) "/shorts/" = false ->
      Js.startsWith (pathname parsedUrl) "/watch" = true ->
      cleanTrackingParams Url toString url
      = (if Js.truthy (protocol parsedUrl)
         then protocol parsedUrl else "https")
        +:+ "//www.youtube.com/watch?v=" +:+ id).
Proof.
  intros Hu Hp Hid Ht.
  unfold normalizeYouTubeUrl, extractVideoId, cleanTrackingParams,
    cleanKnownShape.
  rewrite Hu. cbn [negb]. rewrite Hp, Hid. cbn [negb]. rewrite Ht.
  split; [reflexivity|]. split.
  - intros ->. reflexivity.
  - intros -> ->. reflexivity.
Qed.

End WithParser.

Lemma cleanTrackingParams_vs_normalize_witness :
  normalizeYouTubeUrl UrlParse.parse "http://www.youtube.com/watch?v=abc&t=1"
  = "https://www.youtube.com/watch?v=abc"
  /\ cleanTrackingParams UrlParse.parse (fun _ => EmptyString)
       "http://www.youtube.com/watch?v=abc&t=1"
     = "http://www.youtube.com/watch?v=abc".
Proof.
  destruct (cleanTrackingParams_vs_normalize UrlParse.parse
              (fun _ => EmptyString)
              "http://www.youtube.com/watch?v=abc&t=1"
              (mkUrl "http:" "www.youtube.com" "/watch"
                     {[ "v" := QString "abc"; "t" := QString "1" ]})
              "abc" eq_refl)
    as (Hn & _ & Hw); [vm_compute; reflexivity|reflexivity|reflexivity|].
  split; [exact Hn|]. exact (Hw eq_refl eq_refl).
Defined.

End UrlShapeFacts.
